(** * Vacancy statistics over CSV chunks: a shallow embedding of
      [main.py] and [Helper.py], and the properties of its merge step.

    The development follows the program bottom-up:
    - Python values the program computes with (exceptions, [int] and
      [float] numbers with the arithmetic of [+], [*], [/], [sum], [int]);
    - [Vacancy.__init__] and [Helper.parse_year_from_date_slice];
    - [DataSet]: [increment], [get_average_dict], [csv_reader],
      [get_statistics];
    - [Multiprocessing.get_united_dict] over a store of dict objects, and
      [InputConnect.process_input];
    - the theorems. *)

From Stdlib Require Import ZArith Ascii String Floats.SpecFloat.
From stdpp Require Import gmap strings list fin_maps.

Open Scope Z_scope.

(** ** Exceptions and fallible computations *)

(** The exceptions the modelled code can raise. [RuntimeError] is what a
    generator raises when [next] hits [StopIteration] inside it. *)
Inductive exn :=
  | IndexError
  | KeyError
  | ValueError
  | OverflowError
  | ZeroDivisionError
  | RuntimeError.

Inductive res (A : Type) :=
  | Ok (a : A)
  | Err (e : exn).
Arguments Ok {A} a.
Arguments Err {A} e.

#[global] Instance res_ret : MRet res := @Ok.
#[global] Instance res_bind : MBind res := fun A B f x =>
  match x with
  | Ok a => f a
  | Err e => Err e
  end.

#[global] Instance res_fmap : FMap res := fun A B f x =>
  match x with
  | Ok a => Ok (f a)
  | Err e => Err e
  end.

Definition is_Ok {A} (r : res A) : Prop := exists a, r = Ok a.
Definition is_Err {A} (r : res A) : Prop := exists e, r = Err e.

(** A subscript [d[k]] on a dict raises [KeyError] for a missing key. *)
Definition getitem `{Countable K} {V} (d : gmap K V) (k : K) : res V :=
  match d !! k with
  | Some v => Ok v
  | None => Err KeyError
  end.

(** ** Strings

    A Python [str] is a sequence of code points. *)
Abbreviation pystr := (list N).

Definition str (s : string) : pystr :=
  (fun a => N_of_ascii a) <$> list_ascii_of_string s.

Fixpoint startswith (s sub : pystr) : bool :=
  match sub, s with
  | [], _ => true
  | _ :: _, [] => false
  | c :: sub', d :: s' => if decide (c = d) then startswith s' sub' else false
  end.

(** [s.find(sub)] counted from position [i]: the lowest index where [sub]
    occurs, [-1] when it does not. *)
Fixpoint find_from (s sub : pystr) (i : Z) : Z :=
  if startswith s sub then i
  else match s with
       | [] => -1
       | _ :: s' => find_from s' sub (i + 1)
       end.

Definition find (s sub : pystr) : Z := find_from s sub 0.

(** ** Numbers

    Python floats are IEEE 754 binary64 values; they are modelled with the
    Standard Library's executable specification of binary floating point,
    at precision 53 and maximal exponent 1024. *)
Definition prec : Z := 53.
Definition emax : Z := 1024.

Abbreviation float := spec_float.

Inductive pynum :=
  | PyInt (z : Z)
  | PyFloat (f : float).

(** The implicit conversion of an [int] operand in mixed arithmetic: round
    to nearest even, [OverflowError] past the largest double. *)
Definition float_of_int (z : Z) : res float :=
  match binary_normalize prec emax z 0 false with
  | S754_infinity _ => Err OverflowError
  | f => Ok f
  end.

(** [int(x)] on a float: truncation toward zero. *)
Definition int_of_float (f : float) : res Z :=
  match f with
  | S754_zero _ => Ok 0
  | S754_infinity _ => Err OverflowError
  | S754_nan => Err ValueError
  | S754_finite s m e => Ok (cond_Zopp s (Z.shiftl (Z.pos m) e))
  end.

(** [math.floor(x)]: the largest integer not above [x]. It is not called by
    the program; the averaging claim is stated against it. *)
Definition floor_of_float (f : float) : res Z :=
  match f with
  | S754_zero _ => Ok 0
  | S754_infinity _ => Err OverflowError
  | S754_nan => Err ValueError
  | S754_finite s m e => Ok (Z.shiftl (cond_Zopp s (Z.pos m)) e)
  end.

Definition is_zero (f : float) : bool :=
  match f with
  | S754_zero _ => true
  | _ => false
  end.

(** [a / b] on two ints: the correctly rounded quotient. *)
Definition int_truediv (a b : Z) : res float :=
  if decide (b = 0) then Err ZeroDivisionError
  else if decide (a = 0) then Ok (S754_zero (b <? 0))
  else
    match SFdiv prec emax (S754_finite (a <? 0) (Z.to_pos (Z.abs a)) 0)
                          (S754_finite (b <? 0) (Z.to_pos (Z.abs b)) 0) with
    | S754_infinity _ => Err OverflowError
    | f => Ok f
    end.

(** A decimal float literal [m / 10^k], correctly rounded. *)
Definition float_lit (m : positive) (k : Z) : float :=
  SFdiv prec emax (S754_finite false m 0)
                  (S754_finite false (Z.to_pos (10 ^ k)) 0).

Definition to_float (x : pynum) : res float :=
  match x with
  | PyInt z => float_of_int z
  | PyFloat f => Ok f
  end.

Definition py_add (x y : pynum) : res pynum :=
  match x, y with
  | PyInt a, PyInt b => Ok (PyInt (a + b))
  | _, _ =>
      a ← to_float x; b ← to_float y; Ok (PyFloat (SFadd prec emax a b))
  end.

Definition py_mul (x y : pynum) : res pynum :=
  match x, y with
  | PyInt a, PyInt b => Ok (PyInt (a * b))
  | _, _ =>
      a ← to_float x; b ← to_float y; Ok (PyFloat (SFmul prec emax a b))
  end.

Definition py_truediv (x y : pynum) : res pynum :=
  match x, y with
  | PyInt a, PyInt b => f ← int_truediv a b; Ok (PyFloat f)
  | _, _ =>
      a ← to_float x; b ← to_float y;
      if is_zero b then Err ZeroDivisionError
      else Ok (PyFloat (SFdiv prec emax a b))
  end.

(** [int(x)]. *)
Definition py_int (x : pynum) : res Z :=
  match x with
  | PyInt z => Ok z
  | PyFloat f => int_of_float f
  end.

(** [sum(data)]: [0 + data[0] + data[1] + ...], left to right. *)
Fixpoint sum_from (acc : pynum) (data : list pynum) : res pynum :=
  match data with
  | [] => Ok acc
  | x :: data' => acc' ← py_add acc x; sum_from acc' data'
  end.

Definition py_sum (data : list pynum) : res pynum := sum_from (PyInt 0) data.

(** [len(data)]. *)
Definition len {A} (l : list A) : Z := Z.of_nat (length l).

(** ** The built-in parsers

    [float(s)] and [int(s)] on strings are the interpreter's; the program
    only calls them. They are an interface here, so every theorem below
    holds whatever strings they accept. *)
Class Builtins := {
  float_of_str : pystr -> res float;
  int_of_str : pystr -> res Z;
}.

(** ** [Vacancy] *)

Record Vacancy := {
  name : pystr;
  salary_from : Z;
  salary_to : Z;
  salary_currency : pystr;
  salary_average : pynum;
  area_name : pystr;
  year : Z;
}.

Definition currency_to_rub : gmap pystr pynum :=
  list_to_map
    [ (str "AZN", PyFloat (float_lit 3568 2));
      (str "BYR", PyFloat (float_lit 2391 2));
      (str "EUR", PyFloat (float_lit 5990 2));
      (str "GEL", PyFloat (float_lit 2174 2));
      (str "KGS", PyFloat (float_lit 76 2));
      (str "KZT", PyFloat (float_lit 13 2));
      (str "RUR", PyInt 1);
      (str "UAH", PyFloat (float_lit 164 2));
      (str "USD", PyFloat (float_lit 6066 2));
      (str "UZS", PyFloat (float_lit 55 4)) ].

(** The dicts [get_statistics] builds row by row are iterated afterwards,
    so they are kept in insertion order, as lists of items with distinct
    keys ([pydict]). The four dicts it returns are only looked up and
    merged: they are finite maps, and [statistics] is their tuple (salary
    by year, vacancies by year, and the two for the chosen profession).
    A [csv_file] holds the rows of a chunk file as [csv.reader] hands them
    over, the header first. *)
Abbreviation pydict K V := (list (K * V)).
Abbreviation csv_file := (list (list pystr)).
Abbreviation statistics := (gmap Z Z * gmap Z Z * gmap Z Z * gmap Z Z)%type.

Section Program.
Context `{!Builtins}.

(** [Helper.parse_year_from_date_slice]: [int(date[:4])]. *)
Definition parse_year_from_date_slice (date : pystr) : res Z :=
  int_of_str (take 4 date).

(** [Vacancy.__init__], statement by statement. *)
Definition Vacancy_init (vacancy : gmap pystr pystr) : res Vacancy :=
  name_ ← getitem vacancy (str "name");
  sf ← getitem vacancy (str "salary_from");
  f1 ← float_of_str sf;
  salary_from_ ← int_of_float f1;
  st ← getitem vacancy (str "salary_to");
  f2 ← float_of_str st;
  salary_to_ ← int_of_float f2;
  salary_currency_ ← getitem vacancy (str "salary_currency");
  rate ← getitem currency_to_rub salary_currency_;
  p ← py_mul rate (PyInt (salary_from_ + salary_to_));
  salary_average_ ← py_truediv p (PyInt 2);
  area_name_ ← getitem vacancy (str "area_name");
  date ← getitem vacancy (str "published_at");
  year_ ← parse_year_from_date_slice date;
  Ok {| name := name_; salary_from := salary_from_; salary_to := salary_to_;
        salary_currency := salary_currency_;
        salary_average := salary_average_; area_name := area_name_;
        year := year_ |}.

(** ** [DataSet] *)

(** [DataSet.increment] with a list value: [subject[key] += value] extends
    the list under [key], a new key goes to the end. *)
Fixpoint increment {K} `{EqDecision K} {A}
    (subject : pydict K (list A)) (key : K) (value : list A)
    : pydict K (list A) :=
  match subject with
  | [] => [(key, value)]
  | (k, v) :: subject' =>
      if decide (k = key) then (k, v ++ value) :: subject'
      else (k, v) :: increment subject' key value
  end.

(** One iteration of the loop of [get_average_dict]: the quotient
    [sum(data) / len(data)], then [int] of it. *)
Definition mean (data : list pynum) : res pynum :=
  s ← py_sum data;
  py_truediv s (PyInt (len data)).

Definition average (data : list pynum) : res Z :=
  q ← mean data;
  py_int q.

Fixpoint get_average_dict_loop `{Countable K}
    (items : pydict K (list pynum)) (result : gmap K Z) : res (gmap K Z) :=
  match items with
  | [] => Ok result
  | (key, data) :: items' =>
      v ← average data;
      get_average_dict_loop items' (<[key := v]> result)
  end.

(** [DataSet.get_average_dict]. *)
Definition get_average_dict `{Countable K} (data : pydict K (list pynum))
    : res (gmap K Z) :=
  get_average_dict_loop data ∅.

(** [dict(zip(titles, row))]: a later column of the same title wins. *)
Definition row_dict (titles row : list pystr) : gmap pystr pystr :=
  list_to_map (reverse (zip titles row)).

Definition row_ok (titles row : list pystr) : Prop :=
  ([] ∉ row) ∧ length row = length titles.

#[global] Instance row_ok_dec titles row : Decision (row_ok titles row).
Proof. unfold row_ok. apply _. Defined.

(** [DataSet.csv_reader]: all the dicts the generator yields. [next] on an
    empty file ends the generator with [RuntimeError]. *)
Definition csv_reader (file : csv_file) : res (list (gmap pystr pystr)) :=
  match file with
  | [] => Err RuntimeError
  | titles :: rows => Ok (row_dict titles <$> filter (row_ok titles) rows)
  end.

(** The local variables of [get_statistics] its loop updates. *)
Record accumulators := {
  salary : pydict Z (list pynum);
  salary_of_vacancy_name : pydict Z (list pynum);
  salary_city : pydict pystr (list pynum);
  vacancies_count : Z;
}.

Definition no_accumulators : accumulators :=
  {| salary := []; salary_of_vacancy_name := []; salary_city := [];
     vacancies_count := 0 |}.

(** The body of the [for] loop of [get_statistics], after [Vacancy(...)]. *)
Definition account (vacancy_name : pystr) (acc : accumulators) (v : Vacancy)
    : accumulators :=
  {| salary := increment (salary acc) (year v) [salary_average v];
     salary_of_vacancy_name :=
       if decide (find (name v) vacancy_name ≠ -1)
       then increment (salary_of_vacancy_name acc) (year v) [salary_average v]
       else salary_of_vacancy_name acc;
     salary_city := increment (salary_city acc) (area_name v) [salary_average v];
     vacancies_count := vacancies_count acc + 1 |}.

Fixpoint accumulate (vacancy_name : pystr) (rows : list (gmap pystr pystr))
    (acc : accumulators) : res accumulators :=
  match rows with
  | [] => Ok acc
  | row :: rows' =>
      v ← Vacancy_init row;
      accumulate vacancy_name rows' (account vacancy_name acc v)
  end.

(** The loop computing the share of each area. Its result only feeds the
    area ranking, which [get_statistics] sorts and then drops: rounding,
    filtering and sorting cannot raise, the division can. *)
Fixpoint area_shares (items : pydict pystr (list pynum)) (vacancies_count : Z)
    : res unit :=
  match items with
  | [] => Ok ()
  | (_, salaries) :: items' =>
      _ ← int_truediv (len salaries) vacancies_count;
      area_shares items' vacancies_count
  end.

(** [get_statistics] after its loop. *)
Definition finalize (acc : accumulators) : res statistics :=
  let vacancies_number : gmap Z Z :=
    list_to_map ((fun '(key, value) => (key, len value)) <$> salary acc) in
  let vacs_per_name : gmap Z Z :=
    list_to_map
      ((fun '(key, value) => (key, len value)) <$> salary_of_vacancy_name acc) in
  let target : pydict Z (list pynum) * gmap Z Z :=
    match salary_of_vacancy_name acc with
    | [] => ((fun '(key, value) => (key, [PyInt 0])) <$> salary acc,
             (fun _ : Z => 0) <$> vacancies_number)
    | _ :: _ => (salary_of_vacancy_name acc, vacs_per_name)
    end in
  stat_salary ← get_average_dict (salary acc);
  stat_salary_by_vac ← get_average_dict target.1;
  _ ← get_average_dict (salary_city acc);
  _ ← area_shares (salary_city acc) (vacancies_count acc);
  Ok (stat_salary, vacancies_number, stat_salary_by_vac, target.2).

(** [DataSet.get_statistics] on the chunk [file] for the profession
    [vacancy_name]. *)
Definition get_statistics (file : csv_file) (vacancy_name : pystr)
    : res statistics :=
  rows ← csv_reader file;
  acc ← accumulate vacancy_name rows no_accumulators;
  finalize acc.

End Program.

(** ** [Multiprocessing]

    A task's tuple reaches the parent process as four dict objects of its
    own. [get_united_dict] updates dicts in place and reads them again
    through the pool results, so the dicts live in a store and a tuple is
    the four references it holds. *)
Abbreviation loc := nat.
Abbreviation store := (gmap loc (gmap Z Z)).
Abbreviation result_tuple := (loc * loc * loc * loc)%type.

(** An [AsyncResult] whose task has ended: [get()] returns the value it
    stores, the same object at every call, or raises the task's exception. *)
Abbreviation AsyncResult := (res result_tuple).

Definition get (p : AsyncResult) : res result_tuple := p.

Definition locs_of (t : result_tuple) : list loc :=
  let '(l0, l1, l2, l3) := t in [l0; l1; l2; l3].

(** [t[k]] on the tuple, [l[i]] on a list. *)
Definition tuple_item (t : result_tuple) (k : nat) : res loc :=
  match locs_of t !! k with
  | Some l => Ok l
  | None => Err IndexError
  end.

Definition list_item {A} (l : list A) (i : nat) : res A :=
  match l !! i with
  | Some x => Ok x
  | None => Err IndexError
  end.

(** [target.update(source)]: the items of [source] overwrite those of
    [target], in the object [target]. *)
Definition dict_update (σ : store) (target source : loc) : store :=
  <[target := (σ !!! source) ∪ (σ !!! target)]> σ.

(** The dicts a tuple refers to. *)
Definition load (σ : store) (t : result_tuple) : statistics :=
  let '(l0, l1, l2, l3) := t in (σ !!! l0, σ !!! l1, σ !!! l2, σ !!! l3).

(** A [for] loop whose body may raise. *)
Fixpoint for_each {A S} (body : S -> A -> res S) (l : list A) (s : S) : res S :=
  match l with
  | [] => Ok s
  | x :: l' => s' ← body s x; for_each body l' s'
  end.

(** [Multiprocessing.get_united_dict]: the tuple it returns, and the store
    it leaves. *)
Definition get_united_dict (pools : list AsyncResult) (σ : store)
    : res (result_tuple * store) :=
  p0 ← list_item pools 0;
  answer ← get p0;
  σ' ← for_each (fun σ i =>
          for_each (fun σ k =>
            target ← tuple_item answer k;
            pi ← list_item pools i;
            t ← get pi;
            source ← tuple_item t k;
            Ok (dict_update σ target source))
          (seq 0 4) σ)
        (seq 1 (length pools - 1)) σ;
  p0' ← list_item pools 0;
  r ← get p0';
  Ok (r, σ').

(** ** [InputConnect] *)

(** The outcome of one task arriving in the parent: a raised exception is
    kept as it is, a returned tuple becomes four new dicts at the next free
    locations. *)
Definition receive (outcome : res statistics) (next : loc) (σ : store)
    : AsyncResult * loc * store :=
  match outcome with
  | Err e => (Err e, next, σ)
  | Ok (d0, d1, d2, d3) =>
      (Ok (next, S next, S (S next), S (S (S next))),
       S (S (S (S next))),
       <[S (S (S next)) := d3]> (<[S (S next) := d2]>
         (<[S next := d1]> (<[next := d0]> σ))))
  end.

Fixpoint receive_all (outcomes : list (res statistics)) (next : loc) (σ : store)
    : list AsyncResult * store :=
  match outcomes with
  | [] => ([], σ)
  | o :: outcomes' =>
      let '(p, next', σ') := receive o next σ in
      let '(pools, σ'') := receive_all outcomes' next' σ' in
      (p :: pools, σ'')
  end.

(** The coordinator once every task has ended with [outcomes], in task
    order: the four dicts handed to [print_statistic]. *)
Definition unite (outcomes : list (res statistics)) : res statistics :=
  let '(pools, σ) := receive_all outcomes 0%nat ∅ in
  '(result, σ') ← get_united_dict pools σ;
  Ok (load σ' result).

Section Coordinator.
Context `{!Builtins}.

(** [InputConnect.process_input] on the chunk files [files]: one task per
    file, then the merge; the value is what gets printed. *)
Definition process_input (files : list csv_file) (vacancy_name : pystr)
    : res statistics :=
  unite ((fun file => get_statistics file vacancy_name) <$> files).

End Coordinator.

(** ** [Helper.get_filenames_from_dir]

    [os.walk] is the system's; [walk] is the list it yields for the
    folder, a [(dirpath, dirnames, filenames)] triple per directory, the
    folder itself first, and empty when the folder does not exist. *)
Definition get_filenames_from_dir (dir_name : pystr)
    (walk : list (pystr * list pystr * list pystr)) : res (list pystr) :=
  top ← list_item walk 0;
  let filenames : list pystr := top.2 in
  Ok ((fun x => (str "./" ++ dir_name ++ str "/") ++ x) <$> filenames).

(** ** Definitions the statements use *)

(** [result[k]] on a tuple of four dicts, for [k] in [range(0, 4)]. *)
Definition dict_of (s : statistics) (k : nat) : gmap Z Z :=
  match k with
  | 0%nat => s.1.1.1
  | 1%nat => s.1.1.2
  | 2%nat => s.1.2
  | _ => s.2
  end.

(** The keys of a dict kept as a list of items. *)
Definition keys `{Countable K} {V} (d : pydict K V) : gset K := list_to_set d.*1.

(** The test of [get_statistics] on a vacancy's name. *)
Definition matches (vacancy_name : pystr) (v : Vacancy) : Prop :=
  find (name v) vacancy_name ≠ -1.

(** *** The merge as a fold on values

    [get_united_dict] leaves in the first tuple's dicts what folding
    [dict.update] over the task outcomes gives. [united] is that fold on
    values; [unite_united] below shows the store-passing code computes it. *)
Definition update4 (a t : statistics) : statistics :=
  (dict_of t 0 ∪ dict_of a 0, dict_of t 1 ∪ dict_of a 1,
   dict_of t 2 ∪ dict_of a 2, dict_of t 3 ∪ dict_of a 3).

Fixpoint merge_into (a : statistics) (rest : list (res statistics))
    : res statistics :=
  match rest with
  | [] => Ok a
  | Err e :: _ => Err e
  | Ok t :: rest' => merge_into (update4 a t) rest'
  end.

Definition united (outcomes : list (res statistics)) : res statistics :=
  match outcomes with
  | [] => Err IndexError
  | Err e :: _ => Err e
  | Ok a :: rest => merge_into a rest
  end.

Definition pool_locs (p : AsyncResult) : list loc :=
  match p with
  | Ok t => locs_of t
  | Err _ => []
  end.

(** The pool result [p] stands for the outcome [o] in the store [σ]. *)
Definition stands_for (σ : store) (p : AsyncResult) (o : res statistics) : Prop :=
  match p, o with
  | Ok t, Ok s => load σ t = s
  | Err e, Err e' => e = e'
  | _, _ => False
  end.

(** The four updates of one pass of the outer loop, and the pass with the
    pool result at hand. *)
Definition update_pass (answer t : result_tuple) (σ : store) : store :=
  let '(a0, a1, a2, a3) := answer in
  let '(t0, t1, t2, t3) := t in
  dict_update (dict_update (dict_update (dict_update σ a0 t0) a1 t1) a2 t2) a3 t3.

Definition merge_pass (answer : result_tuple) (σ : store)
    (p : option AsyncResult) : res store :=
  match p with
  | None => Err IndexError
  | Some (Err e) => Err e
  | Some (Ok t) => Ok (update_pass answer t σ)
  end.

(** Two tuples of statistics share no key, dict by dict. *)
Definition disjoint_keys (a b : statistics) : Prop :=
  forall k, dict_of a k ##ₘ dict_of b k.

(** Every key of the two dicts for the profession is a year of the
    dict of salaries. *)
Definition target_years_known (s : statistics) : Prop :=
  dom (dict_of s 2) ⊆ dom (dict_of s 0) ∧ dom (dict_of s 3) ⊆ dom (dict_of s 0).

Definition is_finite (f : float) : bool :=
  match f with
  | S754_zero _ | S754_finite _ _ _ => true
  | _ => false
  end.

Definition is_negative (f : float) : bool :=
  match f with
  | S754_finite true _ _ => true
  | _ => false
  end.

(** The value of a finite float as a fraction of two integers:
    [float_num f / float_den f], with [float_den f] a power of two. *)
Definition float_num (f : float) : Z :=
  match f with
  | S754_finite s m e => cond_Zopp s (Z.pos m) * 2 ^ Z.max e 0
  | _ => 0
  end.

Definition float_den (f : float) : Z :=
  match f with
  | S754_finite _ _ e => 2 ^ Z.max (- e) 0
  | _ => 1
  end.

(** The average as IEEE 754 arithmetic: what Python computes for
    [rate * n / 2], written with the library's operations on doubles. A
    float rate multiplies [n] rounded to a double and the product is
    divided by [2.0]; an int rate multiplies [n] as an integer and the
    product is divided by [2] with one rounding. The conversion of an
    integer and the integer division may not overflow. *)
Definition not_infinity (f : float) : Prop := ∀ s, f ≠ S754_infinity s.

Definition half_of_product (rate : pynum) (n : Z) (avg : float) : Prop :=
  match rate with
  | PyFloat r =>
      not_infinity (binary_normalize prec emax n 0 false) ∧
      avg = SFdiv prec emax
              (SFmul prec emax r (binary_normalize prec emax n 0 false))
              (binary_normalize prec emax 2 0 false)
  | PyInt k =>
      if decide (k * n = 0) then avg = S754_zero false
      else not_infinity avg ∧
           avg = SFdiv prec emax
                   (S754_finite (k * n <? 0) (Z.to_pos (Z.abs (k * n))) 0)
                   (S754_finite false 2 0)
  end.

(** Four empty dicts. *)
Definition no_statistics : statistics := (∅, ∅, ∅, ∅).

(** No two chunk results of the list share a key. *)
Fixpoint pairwise_disjoint (chunks : list statistics) : Prop :=
  match chunks with
  | [] => True
  | c :: chunks' => Forall (disjoint_keys c) chunks' ∧ pairwise_disjoint chunks'
  end.

(** The two dicts for the profession have the years of the dict of
    salaries, each with [0]. *)
Definition zero_target (s : statistics) : Prop :=
  dom (dict_of s 2) = dom (dict_of s 0) ∧ dom (dict_of s 3) = dom (dict_of s 0) ∧
  (∀ k z, dict_of s 2 !! k = Some z → z = 0) ∧
  (∀ k z, dict_of s 3 !! k = Some z → z = 0).

(** *** The merge the specification describes

    Following the specification's words: the per-chunk lists are
    concatenated key by key, the counts added, and the averages taken once,
    on the merged lists. The program does not do this; [spec_process_input]
    is what its output is compared with. *)
Definition concat_lists `{EqDecision K} (a b : pydict K (list pynum))
    : pydict K (list pynum) :=
  foldl (fun d '(k, l) => increment d k l) a b.

Definition spec_merge (a b : accumulators) : accumulators :=
  {| salary := concat_lists (salary a) (salary b);
     salary_of_vacancy_name :=
       concat_lists (salary_of_vacancy_name a) (salary_of_vacancy_name b);
     salary_city := concat_lists (salary_city a) (salary_city b);
     vacancies_count := vacancies_count a + vacancies_count b |}.

Section Specification.
Context `{!Builtins}.

Definition spec_process_input (files : list csv_file) (vacancy_name : pystr)
    : res statistics :=
  accs ← mapM (fun file => rows ← csv_reader file;
                           accumulate vacancy_name rows no_accumulators) files;
  finalize (foldl spec_merge no_accumulators accs).

End Specification.

(** *** Concrete parsers and chunk files for the examples

    [decimal_builtins] reads an optional minus sign and ASCII decimal
    digits, as [int] and [float] do on such strings, and rejects every
    other string. *)
Definition digit (c : N) : option Z :=
  if decide (48 ≤ c ≤ 57)%N then Some (Z.of_N c - 48) else None.

Fixpoint digits (acc : Z) (s : pystr) : option Z :=
  match s with
  | [] => Some acc
  | c :: s' => d ← digit c; digits (10 * acc + d) s'
  end.

Definition signed_digits (s : pystr) : option (bool * Z) :=
  match s with
  | [] => None
  | c :: s' =>
      if decide (c = 45%N) then
        match s' with
        | [] => None
        | _ :: _ => z ← digits 0 s'; Some (true, z)
        end
      else z ← digits 0 s; Some (false, z)
  end.

Definition decimal_int (s : pystr) : res Z :=
  match signed_digits s with
  | Some (sign, z) => Ok (cond_Zopp sign z)
  | None => Err ValueError
  end.

Definition decimal_float (s : pystr) : res float :=
  match signed_digits s with
  | Some (sign, Z0) => Ok (S754_zero sign)
  | Some (sign, Zpos p) => Ok (binary_round prec emax sign p 0)
  | _ => Err ValueError
  end.

Definition decimal_builtins : Builtins :=
  {| float_of_str := decimal_float; int_of_str := decimal_int |}.

Definition titles : list pystr :=
  [str "name"; str "salary_from"; str "salary_to"; str "salary_currency";
   str "area_name"; str "published_at"].

Definition row (name_ from to currency area date : string) : list pystr :=
  [str name_; str from; str to; str currency; str area; str date].

(** One developer in 2020. *)
Definition chunk_dev_2020 : csv_file :=
  [titles; row "developer" "100" "200" "RUR" "Omsk" "2020-05-01"].

(** Two more vacancies in 2020, one of them a developer. *)
Definition chunk_two_2020 : csv_file :=
  [titles; row "developer" "300" "500" "RUR" "Omsk" "2020-07-01";
           row "analyst" "10" "10" "USD" "Tomsk" "2020-08-01"].

(** One analyst in 2019. *)
Definition chunk_analyst_2019 : csv_file :=
  [titles; row "analyst" "50" "70" "RUR" "Tomsk" "2019-03-01"].

(** A header and nothing else. *)
Definition chunk_header_only : csv_file := [titles].

(** A row in a currency the table does not have. *)
Definition chunk_unknown_currency : csv_file :=
  [titles; row "developer" "100" "200" "GBP" "Omsk" "2020-05-01"].

(** A negative salary range. *)
Definition chunk_negative : csv_file :=
  [titles; row "developer" "-3" "0" "RUR" "Omsk" "2020-05-01"].

(** The dict a list of items stands for. *)
Definition as_map `{Countable K} {A} (d : pydict K A) : gmap K A := list_to_map d.

(** The vacancies of the year [y]. *)
Definition of_year (y : Z) (v : Vacancy) : Prop := year v = y.

(** A list under a key, extended by [l]; no key when there was none and
    [l] is empty. *)
Definition extended {A} (o : option (list A)) (l : list A) : option (list A) :=
  match o, l with
  | None, [] => None
  | _, _ => Some (default [] o ++ l)
  end.

(** The six columns [Vacancy.__init__] reads. *)
Definition columns : list pystr :=
  [str "name"; str "salary_from"; str "salary_to"; str "salary_currency";
   str "area_name"; str "published_at"].

(** The record of the row of [chunk_dev_2020]. *)
Definition dev_2020 : Vacancy :=
  {| name := str "developer"; salary_from := 100; salary_to := 200;
     salary_currency := str "RUR";
     salary_average := PyFloat (S754_finite false 5277655813324800 (-45));
     area_name := str "Omsk"; year := 2020 |}.

(** * Properties *)

Set Warnings "-clear-no-such-hyp".

(** ** The store-passing merge computes the fold *)

Lemma dict_update_lookup σ target source l :
  dict_update σ target source !!! l =
    if decide (l = target) then (σ !!! source) ∪ (σ !!! target) else σ !!! l.
Proof.
  unfold dict_update. case_decide as Hl.
  - subst l. apply lookup_total_insert_eq.
  - apply lookup_total_insert_ne. congruence.
Qed.

Lemma dict_update_eq σ target source :
  dict_update σ target source !!! target = (σ !!! source) ∪ (σ !!! target).
Proof. rewrite dict_update_lookup. by rewrite decide_True. Qed.

Lemma dict_update_ne σ target source l :
  l ≠ target → dict_update σ target source !!! l = σ !!! l.
Proof. intros. rewrite dict_update_lookup. by rewrite decide_False. Qed.

Ltac solve_elem :=
  solve [repeat first [apply list_elem_of_here | apply list_elem_of_further]].

Ltac distinct :=
  let E := fresh in
  intros E; subst;
  match goal with H : _ ∉ _ |- _ => apply H; solve_elem end.

Lemma update_pass_answer answer t σ :
  NoDup (locs_of answer ++ locs_of t) →
  load (update_pass answer t σ) answer = update4 (load σ answer) (load σ t).
Proof.
  destruct answer as [[[a0 a1] a2] a3], t as [[[t0 t1] t2] t3].
  intros Hnd. cbn [locs_of app] in Hnd.
  do 4 (apply NoDup_cons in Hnd as [? Hnd]). clear Hnd.
  unfold update4, update_pass, load, dict_of. cbn [fst snd].
  f_equal; [f_equal; [f_equal|]|].
  - rewrite !dict_update_ne by distinct. apply dict_update_eq.
  - rewrite !dict_update_ne by distinct. rewrite dict_update_eq.
    by rewrite !dict_update_ne by distinct.
  - rewrite !dict_update_ne by distinct. rewrite dict_update_eq.
    by rewrite !dict_update_ne by distinct.
  - rewrite dict_update_eq. by rewrite !dict_update_ne by distinct.
Qed.

Lemma update_pass_other answer t σ l :
  l ∉ locs_of answer → update_pass answer t σ !!! l = σ !!! l.
Proof.
  destruct answer as [[[a0 a1] a2] a3], t as [[[t0 t1] t2] t3].
  intros Hl. cbn [locs_of] in Hl. unfold update_pass.
  by rewrite !dict_update_ne by distinct.
Qed.

Lemma load_other answer t t' σ :
  (∀ l, l ∈ locs_of t' → l ∉ locs_of answer) →
  load (update_pass answer t σ) t' = load σ t'.
Proof.
  intros Hl. destruct t' as [[[l0 l1] l2] l3]. cbn [locs_of] in Hl.
  unfold load. rewrite !update_pass_other; [done|apply Hl; solve_elem..].
Qed.
Lemma inner_loop answer pools i σ :
  for_each (fun σ k =>
      target ← tuple_item answer k;
      pi ← list_item pools i;
      t ← get pi;
      source ← tuple_item t k;
      Ok (dict_update σ target source))
    (seq 0 4) σ
  = merge_pass answer σ (pools !! i).
Proof.
  destruct answer as [[[a0 a1] a2] a3]. unfold list_item, merge_pass.
  destruct (pools !! i) as [[[[[t0 t1] t2] t3]|e]|]; reflexivity.
Qed.

Lemma for_each_ext {A S} (f g : S → A → res S) l s :
  (∀ s x, f s x = g s x) → for_each f l s = for_each g l s.
Proof.
  intros Hfg. revert s. induction l as [|x l IH]; intros s; simpl; [done|].
  rewrite Hfg. destruct (g s x); simpl; auto.
Qed.

Lemma for_each_indices {A S} (F : S → option A → res S) pre rest s :
  for_each (fun s i => F s ((pre ++ rest) !! i)) (seq (length pre) (length rest)) s
  = for_each (fun s x => F s (Some x)) rest s.
Proof.
  revert pre s. induction rest as [|x rest IH]; intros pre s; simpl; [done|].
  rewrite lookup_app_r, Nat.sub_diag by lia. simpl.
  destruct (F s (Some x)) as [s'|e]; simpl; [|done].
  specialize (IH (pre ++ [x]) s').
  rewrite <- app_assoc, length_app in IH. simpl in IH.
  rewrite Nat.add_1_r in IH. exact IH.
Qed.

Lemma stands_for_frame σ σ' pools outs :
  Forall2 (stands_for σ) pools outs →
  (∀ l, l ∈ pools ≫= pool_locs → σ' !!! l = σ !!! l) →
  Forall2 (stands_for σ') pools outs.
Proof.
  induction 1 as [|p o pools outs Hp _ IH]; intros Hsame; constructor.
  - destruct p as [[[[l0 l1] l2] l3]|e], o as [s|e']; try done.
    unfold stands_for, load in *.
    rewrite !Hsame; [done|cbn [mbind list_bind pool_locs locs_of app]; solve_elem..].
  - apply IH. intros l Hl. apply Hsame.
    cbn [mbind list_bind]. apply elem_of_app. by right.
Qed.

Lemma merge_loop answer rest : ∀ outs σ a,
  Forall2 (stands_for σ) rest outs →
  NoDup (locs_of answer ++ (rest ≫= pool_locs)) →
  load σ answer = a →
  (fun σ' => load σ' answer) <$> for_each (fun σ p => merge_pass answer σ (Some p)) rest σ
  = merge_into a outs.
Proof.
  induction rest as [|p rest IH]; intros outs σ a Hrep Hnd Ha.
  - apply Forall2_nil_inv_l in Hrep as ->. simpl. by rewrite Ha.
  - apply Forall2_cons_inv_l in Hrep as (o & outs' & Hp & Hrep & ->).
    destruct p as [t|e], o as [s|e']; simpl in Hp; try done; [|by subst].
    simpl in Hnd |- *.
    apply NoDup_app in Hnd as (Ha_nd & Hdisj & Hrest).
    apply NoDup_app in Hrest as (Ht_nd & Hdisj' & Hrest).
    apply IH.
    + eapply stands_for_frame; [exact Hrep|].
      intros l Hl. apply update_pass_other.
      intros Hl'. apply (Hdisj l Hl'). apply elem_of_app. by right.
    + apply NoDup_app. split_and!; [done| |done].
      intros l Hl Hl'. apply (Hdisj l Hl). apply elem_of_app. by right.
    + rewrite update_pass_answer, Ha, Hp; [done|].
      apply NoDup_app. split_and!; [done| |done].
      intros l Hl Hl'. apply (Hdisj l Hl). apply elem_of_app. by left.
Qed.

Lemma receive_all_spec outcomes : ∀ next σ pools σ',
  receive_all outcomes next σ = (pools, σ') →
  Forall2 (stands_for σ') pools outcomes ∧
  NoDup (pools ≫= pool_locs) ∧
  (∀ l, l ∈ pools ≫= pool_locs → (next ≤ l)%nat) ∧
  (∀ l, (l < next)%nat → σ' !! l = σ !! l).
Proof.
  induction outcomes as [|o outcomes IH]; intros next σ pools σ' Hrec.
  - simpl in Hrec. injection Hrec as <- <-.
    split_and!; [constructor|constructor| |done].
    intros l Hl. by apply elem_of_nil in Hl.
  - simpl in Hrec.
    destruct (receive o next σ) as [[p next'] σ1] eqn:Hr.
    destruct (receive_all outcomes next' σ1) as [pools' σ2] eqn:Hra.
    injection Hrec as <- <-.
    apply IH in Hra as (Hrep & Hnd & Hlocs & Hold).
    destruct o as [[[[d0 d1] d2] d3]|e]; simpl in Hr; injection Hr as <- <- <-.
    + split_and!.
      * constructor; [|done]. unfold stands_for, load.
        unfold lookup_total, map_lookup_total.
        rewrite !Hold by lia.
        rewrite lookup_insert_eq.
        rewrite (lookup_insert_ne _ (S (S (S next))) (S (S next))) by lia.
        rewrite lookup_insert_eq.
        rewrite (lookup_insert_ne _ (S (S (S next))) (S next)) by lia.
        rewrite (lookup_insert_ne _ (S (S next)) (S next)) by lia.
        rewrite lookup_insert_eq.
        rewrite (lookup_insert_ne _ (S (S (S next))) next) by lia.
        rewrite (lookup_insert_ne _ (S (S next)) next) by lia.
        rewrite (lookup_insert_ne _ (S next) next) by lia.
        by rewrite lookup_insert_eq.
      * cbn [mbind list_bind pool_locs locs_of app].
        repeat (apply NoDup_cons; split); [..|done].
        all: intros Hin;
          repeat (apply elem_of_cons in Hin as [Hin|Hin]; [lia|]);
          apply Hlocs in Hin; lia.
      * intros l Hl. cbn [mbind list_bind pool_locs locs_of app] in Hl.
        repeat (apply elem_of_cons in Hl as [Hl|Hl]; [lia|]).
        apply Hlocs in Hl. lia.
      * intros l Hl. rewrite Hold by lia. by rewrite !lookup_insert_ne by lia.
    + split_and!; [by constructor|done|done|done].
Qed.

Lemma unite_united outcomes : unite outcomes = united outcomes.
Proof.
  unfold unite, get_united_dict.
  destruct (receive_all outcomes 0%nat ∅) as [pools σ] eqn:Hrec.
  apply receive_all_spec in Hrec as (Hrep & Hnd & _ & _).
  destruct Hrep as [|p o pools outs Hp Hrep]; [done|].
  destruct p as [answer|e], o as [a|e']; simpl in Hp; try done; [|by subst].
  cbn [list_item lookup list_lookup mbind res_bind get united].
  cbn [length]. rewrite Nat.sub_succ, Nat.sub_0_r.
  rewrite (for_each_ext _ (fun σ i => merge_pass answer σ ((Ok answer :: pools) !! i))).
  2:{ intros. apply inner_loop. }
  rewrite (for_each_indices (merge_pass answer) [Ok answer] pools).
  rewrite <- (merge_loop answer pools outs σ a Hrep Hnd Hp).
  by destruct (for_each _ pools σ).
Qed.

(** ** The fold on values *)

Lemma dict_of_update4 a t k : dict_of (update4 a t) k = dict_of t k ∪ dict_of a k.
Proof. by destruct k as [|[|[|k]]]. Qed.

Lemma merge_into_Ok chunks : ∀ a,
  merge_into a (Ok <$> chunks) = Ok (foldl update4 a chunks).
Proof. induction chunks as [|t chunks IH]; intros a; simpl; [done|apply IH]. Qed.

Lemma merge_into_Err rest : ∀ a, (∃ e, Err e ∈ rest) → is_Err (merge_into a rest).
Proof.
  induction rest as [|[t|e] rest IH]; intros a [e' Hin].
  - by apply elem_of_nil in Hin.
  - simpl. apply IH. apply elem_of_cons in Hin as [[=]|Hin]. by exists e'.
  - by exists e.
Qed.

Lemma merge_into_first_Err rest : ∀ a i e,
  rest !! i = Some (Err e) →
  (∀ j, (j < i)%nat → ∃ t, rest !! j = Some (Ok t)) →
  merge_into a rest = Err e.
Proof.
  induction rest as [|o rest IH]; intros a i e Hi Hbefore; [done|].
  destruct i as [|i]; simpl in Hi.
  - by injection Hi as ->.
  - destruct (Hbefore 0%nat) as [t Ht]; [lia|]. injection Ht as ->. simpl.
    apply (IH _ i); [done|]. intros j Hj. apply (Hbefore (S j)). lia.
Qed.

Lemma lookup_merged_None chunks k key : ∀ a,
  dict_of (foldl update4 a chunks) k !! key = None ↔
  dict_of a k !! key = None ∧ Forall (fun t => dict_of t k !! key = None) chunks.
Proof.
  induction chunks as [|t chunks IH]; intros a; simpl.
  - split; [intros ?; by split|tauto].
  - rewrite IH, dict_of_update4, lookup_union_None, Forall_cons. tauto.
Qed.

(** The value under a key is the one of the last chunk that has the key. *)
Lemma lookup_merged_last chunks k key : ∀ a i c v,
  (a :: chunks) !! i = Some c →
  dict_of c k !! key = Some v →
  (∀ j c', (i < j)%nat → (a :: chunks) !! j = Some c' → dict_of c' k !! key = None) →
  dict_of (foldl update4 a chunks) k !! key = Some v.
Proof.
  induction chunks as [|t chunks IH]; intros a i c v Hi Hv Hlater.
  - destruct i; [|done]. simpl in *. by injection Hi as ->.
  - simpl. destruct i as [|[|i]]; simpl in Hi.
    + injection Hi as <-. apply (IH _ 0%nat (update4 a t)); [done| |].
      * rewrite dict_of_update4, lookup_union_r; [done|].
        apply (Hlater 1%nat); [lia|done].
      * intros [|j] c' Hj Hc'; [lia|]. apply (Hlater (S (S j))); [lia|done].
    + injection Hi as ->. apply (IH _ 0%nat (update4 a c)); [done| |].
      * rewrite dict_of_update4. by apply lookup_union_Some_l.
      * intros [|j] c' Hj Hc'; [lia|]. apply (Hlater (S (S j))); [lia|done].
    + apply (IH _ (S i) c); [done|done|].
      intros [|j] c' Hj Hc'; [lia|]. apply (Hlater (S (S j))); [lia|done].
Qed.

Lemma dom_merged chunks k : ∀ a,
  dom (dict_of (foldl update4 a chunks) k)
  = ⋃ ((fun c => dom (dict_of c k)) <$> (a :: chunks)).
Proof.
  induction chunks as [|t chunks IH]; intros a; simpl.
  - set_solver.
  - rewrite IH. simpl. rewrite dict_of_update4, dom_union_L. set_solver.
Qed.

Lemma statistics_eq (a b : statistics) :
  (∀ k, (k < 4)%nat → dict_of a k = dict_of b k) → a = b.
Proof.
  destruct a as [[[a0 a1] a2] a3], b as [[[b0 b1] b2] b3]. intros Hk.
  pose proof (Hk 0%nat ltac:(lia)). pose proof (Hk 1%nat ltac:(lia)).
  pose proof (Hk 2%nat ltac:(lia)). pose proof (Hk 3%nat ltac:(lia)).
  simpl in *. by subst.
Qed.

Lemma update4_assoc a b c : update4 (update4 a b) c = update4 a (update4 b c).
Proof.
  apply statistics_eq. intros k _. rewrite !dict_of_update4.
  apply map_union_assoc.
Qed.

Lemma update4_comm a b : disjoint_keys a b → update4 a b = update4 b a.
Proof.
  intros Hd. apply statistics_eq. intros k _. rewrite !dict_of_update4.
  apply map_union_comm. symmetry. apply Hd.
Qed.

(** ** The dicts of [get_statistics] *)

Lemma bind_Ok {A B} (x : res A) (f : A → res B) b :
  x ≫= f = Ok b ↔ ∃ a, x = Ok a ∧ f a = Ok b.
Proof. destruct x; simpl; split; [eauto| intros (?&[=]&?); by subst | done | intros (?&?&?); done]. Qed.

Lemma elem_of_increment_keys `{EqDecision K} {A} (d : pydict K (list A)) k v x :
  x ∈ (increment d k v).*1 ↔ x = k ∨ x ∈ d.*1.
Proof.
  induction d as [|[k' v'] d IH]; simpl.
  - rewrite elem_of_cons, elem_of_nil. tauto.
  - destruct (decide (k' = k)) as [->|Hne]; simpl.
    + rewrite !elem_of_cons. tauto.
    + rewrite !elem_of_cons, IH. tauto.
Qed.

Lemma keys_increment `{Countable K} {A} (d : pydict K (list A)) k v :
  keys (increment d k v) = {[k]} ∪ keys d.
Proof.
  apply set_eq. intros x. unfold keys.
  rewrite elem_of_union, !elem_of_list_to_set, elem_of_singleton.
  apply elem_of_increment_keys.
Qed.

Lemma increment_nil `{EqDecision K} {A} (d : pydict K (list A)) k v :
  increment d k v ≠ [].
Proof. destruct d as [|[k' v'] d]; simpl; [done|]. by case_decide. Qed.

Lemma get_average_dict_loop_dom `{Countable K} (items : pydict K (list pynum)) :
  ∀ r r', get_average_dict_loop items r = Ok r' → dom r' = dom r ∪ keys items.
Proof.
  unfold keys. induction items as [|[k l] items IH]; intros r r' Hr; simpl in *.
  - injection Hr as <-. set_solver.
  - apply bind_Ok in Hr as (z & _ & Hr). apply IH in Hr. rewrite Hr, dom_insert_L. set_solver.
Qed.

Lemma get_average_dict_dom `{Countable K} (data : pydict K (list pynum)) r :
  get_average_dict data = Ok r → dom r = keys data.
Proof. intros Hr%get_average_dict_loop_dom. rewrite Hr, dom_empty_L. set_solver. Qed.

Lemma get_average_dict_loop_values `{Countable K} (items : pydict K (list pynum)) :
  ∀ r r' k z, get_average_dict_loop items r = Ok r' → r' !! k = Some z →
    r !! k = Some z ∨ ∃ l, (k, l) ∈ items ∧ average l = Ok z.
Proof.
  induction items as [|[k' l] items IH]; intros r r' k z Hr Hk; simpl in *.
  - injection Hr as <-. by left.
  - apply bind_Ok in Hr as (z' & Hz' & Hr).
    destruct (IH _ _ _ _ Hr Hk) as [Hin|(l' & Hin & Hav)].
    + destruct (decide (k' = k)) as [->|Hne].
      * rewrite lookup_insert_eq in Hin. injection Hin as ->. right. exists l. split; [left|done].
      * rewrite lookup_insert_ne in Hin by done. by left.
    + right. exists l'. split; [by right|done].
Qed.

Lemma get_average_dict_values `{Countable K} (data : pydict K (list pynum)) r k z :
  get_average_dict data = Ok r → r !! k = Some z →
  ∃ l, (k, l) ∈ data ∧ average l = Ok z.
Proof.
  intros Hr Hk. destruct (get_average_dict_loop_values _ _ _ _ _ Hr Hk) as [Hin|]; [|done].
  by rewrite lookup_empty in Hin.
Qed.

(** With distinct keys, each key gets the average of its own list. *)
Lemma get_average_dict_loop_lookup `{Countable K} (items : pydict K (list pynum)) :
  ∀ r r' k l, NoDup items.*1 → get_average_dict_loop items r = Ok r' → (k, l) ∈ items →
    ∃ z, average l = Ok z ∧ r' !! k = Some z.
Proof.
  induction items as [|[k' l'] items IH]; intros r r' k l Hnd Hr Hin; simpl in *.
  - by apply elem_of_nil in Hin.
  - apply bind_Ok in Hr as (z' & Hz' & Hr). apply NoDup_cons in Hnd as [Hk' Hnd].
    apply elem_of_cons in Hin as [[= -> ->]|Hin]; [|by eapply IH].
    exists z'. split; [done|].
    destruct (r' !! k') as [z|] eqn:Hlk.
    + destruct (get_average_dict_loop_values _ _ _ _ _ Hr Hlk) as [Hin|(l & Hin & _)].
      * rewrite lookup_insert_eq in Hin. by injection Hin as ->.
      * exfalso. apply Hk'. apply list_elem_of_fmap. by exists (k', l).
    + apply not_elem_of_dom in Hlk. apply get_average_dict_loop_dom in Hr.
      rewrite Hr, dom_insert_L in Hlk. set_solver.
Qed.

Lemma get_average_dict_loop_total `{Countable K} (items : pydict K (list pynum)) :
  ∀ r, (∀ k l, (k, l) ∈ items → is_Ok (average l)) → is_Ok (get_average_dict_loop items r).
Proof.
  induction items as [|[k l] items IH]; intros r Hall; simpl.
  - by eexists.
  - destruct (Hall k l) as [z ->]; [left|]. simpl. apply IH.
    intros k' l' Hin. apply (Hall k' l'). by right.
Qed.

Section Statistics.
Context `{!Builtins}.

Lemma accumulate_Ok vacancy_name rows : ∀ acc acc',
  accumulate vacancy_name rows acc = Ok acc' ↔
  ∃ vs, Forall2 (fun row v => Vacancy_init row = Ok v) rows vs ∧
        acc' = foldl (account vacancy_name) acc vs.
Proof.
  induction rows as [|row rows IH]; intros acc acc'; simpl.
  - split.
    + intros [= <-]. exists []. by split; [constructor|].
    + intros (vs & Hvs & ->). by apply Forall2_nil_inv_l in Hvs as ->.
  - rewrite bind_Ok. split.
    + intros (v & Hv & Hacc). apply IH in Hacc as (vs & Hvs & ->).
      exists (v :: vs). by split; [constructor|].
    + intros (vs & Hvs & ->).
      apply Forall2_cons_inv_l in Hvs as (v & vs' & Hv & Hvs & ->).
      exists v. split; [done|]. apply IH. by exists vs'.
Qed.

Lemma accumulate_Err vacancy_name rows row : ∀ acc,
  row ∈ rows → is_Err (Vacancy_init row) →
  is_Err (accumulate vacancy_name rows acc).
Proof.
  induction rows as [|row' rows IH]; intros acc Hin Herr.
  - by apply elem_of_nil in Hin.
  - simpl. destruct (Vacancy_init row') as [v|e] eqn:Hv; simpl; [|by eexists].
    apply elem_of_cons in Hin as [->|Hin]; [|by apply IH].
    destruct Herr as [e He]. congruence.
Qed.

Lemma keys_salary vacancy_name vs : ∀ acc,
  keys (salary (foldl (account vacancy_name) acc vs))
  = keys (salary acc) ∪ list_to_set (year <$> vs).
Proof.
  induction vs as [|v vs IH]; intros acc; simpl; [set_solver|].
  rewrite IH. simpl. rewrite keys_increment. set_solver.
Qed.

Lemma keys_salary_of_vacancy_name vacancy_name vs : ∀ acc,
  keys (salary_of_vacancy_name (foldl (account vacancy_name) acc vs))
  = keys (salary_of_vacancy_name acc)
    ∪ list_to_set (year <$> filter (matches vacancy_name) vs).
Proof.
  induction vs as [|v vs IH]; intros acc; simpl; [set_solver|].
  rewrite IH. simpl. unfold filter; simpl. fold (filter (matches vacancy_name) vs).
  unfold matches at 2. case_decide; simpl.
  - rewrite keys_increment. set_solver.
  - set_solver.
Qed.

Lemma salary_of_vacancy_name_nil vacancy_name vs : ∀ acc,
  salary_of_vacancy_name (foldl (account vacancy_name) acc vs) = [] ↔
  salary_of_vacancy_name acc = [] ∧ filter (matches vacancy_name) vs = [].
Proof.
  induction vs as [|v vs IH]; intros acc; simpl; [tauto|].
  rewrite IH. simpl. rewrite filter_cons. unfold matches at 2.
  case_decide; [|tauto].
  split; [intros [Hn _]; by apply increment_nil in Hn|intros [_ [=]]].
Qed.

Lemma keys_fmap_items `{Countable K} {V W} (f : K * V → K * W) (d : pydict K V) :
  (∀ kv, (f kv).1 = kv.1) → keys (f <$> d) = keys d.
Proof.
  intros Hf. unfold keys. f_equal. rewrite <- list_fmap_compose.
  apply list_fmap_ext. intros _ kv _. apply Hf.
Qed.

Lemma dom_lens (d : pydict Z (list pynum)) :
  dom (list_to_map ((fun '(key, value) => (key, len value)) <$> d) : gmap Z Z) = keys d.
Proof.
  rewrite dom_list_to_map_L. apply (keys_fmap_items (V:=list pynum) (W:=Z)). by intros [].
Qed.

Lemma finalize_Ok acc s0 s1 s2 s3 :
  finalize acc = Ok (s0, s1, s2, s3) →
  dom s0 = keys (salary acc) ∧ dom s1 = keys (salary acc) ∧
  (salary_of_vacancy_name acc = [] →
     dom s2 = keys (salary acc) ∧ dom s3 = keys (salary acc) ∧
     (∀ k z, s2 !! k = Some z → z = 0) ∧ (∀ k z, s3 !! k = Some z → z = 0)) ∧
  (salary_of_vacancy_name acc ≠ [] →
     dom s2 = keys (salary_of_vacancy_name acc) ∧
     dom s3 = keys (salary_of_vacancy_name acc)).
Proof.
  unfold finalize. intros Hf.
  apply bind_Ok in Hf as (r0 & Hr0 & Hf).
  apply bind_Ok in Hf as (r2 & Hr2 & Hf).
  apply bind_Ok in Hf as (rc & _ & Hf).
  apply bind_Ok in Hf as (u & _ & Hf).
  injection Hf as <- <- <- <-.
  split; [by apply get_average_dict_dom|]. split; [apply dom_lens|].
  destruct (salary_of_vacancy_name acc) as [|item target] eqn:Ht; cbn [fst snd] in *.
  - split; [|done]. intros _. split_and!.
    + apply get_average_dict_dom in Hr2. rewrite Hr2.
      apply (keys_fmap_items (V:=list pynum) (W:=list pynum)). by intros [].
    + rewrite dom_fmap_L. apply dom_lens.
    + intros k z Hk.
      destruct (get_average_dict_values _ _ _ _ Hr2 Hk) as (l & Hin & Hav).
      apply list_elem_of_fmap in Hin as ([k' l'] & [= -> ->] & _).
      by injection Hav as <-.
    + intros k z Hk. rewrite lookup_fmap in Hk.
      destruct (_ !! k); simpl in Hk; [by injection Hk as <-|done].
  - split; [done|]. intros _. split.
    + by apply get_average_dict_dom in Hr2.
    + apply dom_lens.
Qed.

(** An empty accumulation gives four empty dicts: no division is reached. *)
Lemma finalize_no_accumulators : finalize no_accumulators = Ok (∅, ∅, ∅, ∅).
Proof. reflexivity. Qed.

End Statistics.

(** ** Consequences for the coordinator *)

Lemma update4_no_statistics a : update4 no_statistics a = a.
Proof.
  apply statistics_eq. intros k _. rewrite dict_of_update4.
  replace (dict_of no_statistics k) with (∅ : gmap Z Z) by (by destruct k as [|[|[|k]]]).
  apply (right_id_L ∅ (∪)).
Qed.

Lemma unite_chunks c chunks :
  unite (Ok <$> c :: chunks) = Ok (foldl update4 c chunks).
Proof. rewrite unite_united. simpl. apply merge_into_Ok. Qed.

Lemma unite_chunks_from_empty chunks :
  chunks ≠ [] → unite (Ok <$> chunks) = Ok (foldl update4 no_statistics chunks).
Proof.
  destruct chunks as [|c chunks]; [done|]. intros _.
  rewrite unite_chunks. simpl. by rewrite update4_no_statistics.
Qed.

Lemma unite_Ok_inv outcomes s :
  unite outcomes = Ok s →
  ∃ c chunks, outcomes = Ok <$> c :: chunks ∧ s = foldl update4 c chunks.
Proof.
  rewrite unite_united. destruct outcomes as [|[c|e] rest]; simpl; try done.
  intros Hm. exists c.
  revert c Hm. induction rest as [|[t|e] rest IH]; intros c Hm; simpl in Hm.
  - injection Hm as <-. by exists [].
  - apply IH in Hm as (chunks & [= ->] & ->). by exists (t :: chunks).
  - done.
Qed.

Lemma get_united_dict_first pools σ t σ' :
  get_united_dict pools σ = Ok (t, σ') → pools !! 0%nat = Some (Ok t).
Proof.
  unfold get_united_dict, list_item, get.
  destruct (pools !! 0%nat) as [[answer|e]|]; simpl; try done.
  destruct (for_each _ _ σ); simpl; [|done]. by intros [= -> _].
Qed.

Lemma lookup_merged_Some chunks k key v : ∀ a,
  dict_of (foldl update4 a chunks) k !! key = Some v →
  ∃ c, c ∈ a :: chunks ∧ dict_of c k !! key = Some v.
Proof.
  induction chunks as [|t chunks IH]; intros a Hv; simpl in Hv.
  - exists a. split; [left|done].
  - apply IH in Hv as (c & Hin & Hc).
    apply elem_of_cons in Hin as [->|Hin].
    + rewrite dict_of_update4 in Hc. apply lookup_union_Some_raw in Hc as [Hc|[_ Hc]].
      * exists t. split; [right; left|done].
      * exists a. split; [left|done].
    + exists c. split; [by do 2 right|done].
Qed.

Lemma disjoint_keys_sym a b : disjoint_keys a b → disjoint_keys b a.
Proof. intros Hd k. symmetry. apply Hd. Qed.

Lemma pairwise_disjoint_perm chunks chunks' :
  chunks ≡ₚ chunks' → pairwise_disjoint chunks → pairwise_disjoint chunks'.
Proof.
  induction 1 as [|c l l' Hp IH|c d l|l l' l'' _ IH1 _ IH2]; simpl.
  - done.
  - intros [Hc Hl]. split; [by rewrite <- Hp|auto].
  - intros [Hd [Hc Hl]]. apply Forall_cons in Hd as [Hdc Hd].
    split_and!; [|done|done]. constructor; [by apply disjoint_keys_sym|done].
  - auto.
Qed.

Lemma foldl_update4_perm chunks chunks' :
  chunks ≡ₚ chunks' → pairwise_disjoint chunks →
  ∀ a, foldl update4 a chunks = foldl update4 a chunks'.
Proof.
  induction 1 as [|c l l' Hp IH|c d l|l l' l'' Hp1 IH1 Hp2 IH2]; simpl.
  - done.
  - intros [_ Hl] a. by apply IH.
  - intros [Hd _] a. apply Forall_cons in Hd as [Hdc _].
    f_equal. rewrite !update4_assoc. f_equal. by apply update4_comm.
  - intros Hl a. rewrite IH1 by done. apply IH2. by eapply pairwise_disjoint_perm.
Qed.

(** ** The merge step *)

(** C5, where the code differs: with no pool result at all,
    [self.pools[0]] is out of range and the merge raises [IndexError]
    instead of returning an empty result. *)
Lemma unite_no_chunks_raises :
  unite [] = Err IndexError ∧
  get_united_dict [] ∅ = Err IndexError ∧
  @process_input decimal_builtins [] (str "developer") = Err IndexError.
Proof. by vm_compute. Qed.

(** C5, as the code has it: over one or more chunk results the merge step
    returns a result without error, and a single chunk result comes back
    unchanged. *)
Theorem unite_total_on_chunks (c : statistics) (chunks : list statistics) :
  is_Ok (unite (Ok <$> c :: chunks)) ∧ unite [Ok c] = Ok c.
Proof.
  split.
  - rewrite unite_chunks. by eexists.
  - apply (unite_chunks c []).
Qed.

(** C10: with two chunk results or more, [get_united_dict] returns the
    first pool result's own tuple, whose four dicts it has updated in
    place; each of them then has the union of the chunks' keys, and under
    a key the value of the last chunk, in task order, that has the key. *)
Theorem get_united_dict_last_chunk_wins
    (chunks : list statistics) (pools : list AsyncResult) (σ : store) :
  (2 ≤ length chunks)%nat →
  receive_all (Ok <$> chunks) 0%nat ∅ = (pools, σ) →
  ∃ first σ',
    pools !! 0%nat = Some (Ok first) ∧
    get_united_dict pools σ = Ok (first, σ') ∧
    ∀ k, (k < 4)%nat →
      dom (dict_of (load σ' first) k)
        = ⋃ ((fun c => dom (dict_of c k)) <$> chunks) ∧
      ∀ key i c v,
        chunks !! i = Some c →
        dict_of c k !! key = Some v →
        (∀ j c', (i < j)%nat → chunks !! j = Some c' →
                 dict_of c' k !! key = None) →
        dict_of (load σ' first) k !! key = Some v.
Proof.
  intros Hlen Hrec.
  destruct chunks as [|c chunks]; [simpl in Hlen; lia|].
  pose proof (unite_chunks c chunks) as Hu.
  unfold unite in Hu. rewrite Hrec in Hu.
  destruct (get_united_dict pools σ) as [[first σ']|e] eqn:Hg; [|done].
  simpl in Hu. injection Hu as Hload.
  exists first, σ'. split; [by eapply get_united_dict_first|]. split; [done|].
  intros k _. rewrite Hload. split; [apply dom_merged|].
  intros key i c' v. apply lookup_merged_last.
Qed.

Lemma get_united_dict_last_chunk_wins_witness :
  ∃ first σ',
    get_united_dict [Ok (0, 1, 2, 3); Ok (4, 5, 6, 7)]%nat
      (receive_all [Ok ({[2020 := 1]}, ∅, ∅, ∅); Ok ({[2020 := 3]}, ∅, ∅, ∅)]
         0%nat ∅).2
    = Ok (first, σ') ∧
    dict_of (load σ' first) 0 !! 2020 = Some 3.
Proof.
  destruct (get_united_dict_last_chunk_wins
              [({[2020 := 1]}, ∅, ∅, ∅); ({[2020 := 3]}, ∅, ∅, ∅)]
              [Ok (0, 1, 2, 3); Ok (4, 5, 6, 7)]%nat
              (receive_all [Ok ({[2020 := 1]}, ∅, ∅, ∅); Ok ({[2020 := 3]}, ∅, ∅, ∅)]
                 0%nat ∅).2)
    as (first & σ' & _ & Hg & Hk).
  - simpl. lia.
  - reflexivity.
  - exists first, σ'. split; [exact Hg|].
    destruct (Hk 0%nat ltac:(lia)) as [_ Hlast].
    apply (Hlast 2020 1%nat ({[2020 := 3]}, ∅, ∅, ∅) 3).
    + reflexivity.
    + reflexivity.
    + intros [|[|j]] c' Hj Hc'; [lia|lia|done].
Defined.

Section Merge.
Context `{!Builtins}.

Lemma process_input_chunks (files : list csv_file) vacancy_name chunks :
  Forall2 (fun file c => get_statistics file vacancy_name = Ok c) files chunks →
  process_input files vacancy_name = unite (Ok <$> chunks).
Proof.
  intros Hall. unfold process_input. f_equal.
  induction Hall as [|file c files chunks Hc _ IH]; [done|].
  rewrite !fmap_cons, Hc. f_equal. exact IH.
Qed.

(** C1, as the code has it: every chunk is averaged on its own, and the
    merge step unites the chunks' finished dicts by key without
    concatenating any list. A key no chunk has is absent from the merged
    dict, and a key exactly one chunk has keeps that chunk's value. *)
Theorem process_input_keeps_sole_chunk_value
    (files : list csv_file) (vacancy_name : pystr) (chunks : list statistics) :
  files ≠ [] →
  Forall2 (fun file c => get_statistics file vacancy_name = Ok c) files chunks →
  ∃ merged,
    process_input files vacancy_name = Ok merged ∧
    ∀ k key,
      (dict_of merged k !! key = None ↔
       ∀ c, c ∈ chunks → dict_of c k !! key = None) ∧
      ∀ i c v,
        chunks !! i = Some c →
        dict_of c k !! key = Some v →
        (∀ j c', j ≠ i → chunks !! j = Some c' → dict_of c' k !! key = None) →
        dict_of merged k !! key = Some v.
Proof.
  intros Hfiles Hall. rewrite (process_input_chunks _ _ _ Hall).
  destruct Hall as [|file c files chunks _ _]; [done|].
  rewrite unite_chunks. eexists. split; [done|].
  intros k key. split.
  - rewrite lookup_merged_None. split.
    + intros [Hc Hrest] c' [->|Hin]%elem_of_cons; [done|].
      by apply (proj1 (Forall_forall _ _) Hrest).
    + intros Hnone. split; [apply Hnone; left|].
      apply Forall_forall. intros c' Hin. apply Hnone. by right.
  - intros i c' v Hi Hv Hothers. eapply lookup_merged_last; [done..|].
    intros j c'' Hj. apply Hothers. lia.
Qed.

End Merge.

(** C1, where the code differs: two chunks with vacancies of 2020 (one,
    then two). The program keeps the second chunk's count and average for
    2020 and drops the first chunk's row; concatenating the lists before
    averaging, as the specification describes, counts all three rows. *)
Lemma process_input_drops_shared_year :
  ∃ s s',
    @process_input decimal_builtins [chunk_dev_2020; chunk_two_2020]
      (str "developer") = Ok s ∧
    @spec_process_input decimal_builtins [chunk_dev_2020; chunk_two_2020]
      (str "developer") = Ok s' ∧
    dict_of s 1 !! 2020 = Some 2 ∧ dict_of s' 1 !! 2020 = Some 3 ∧
    dict_of s 0 !! 2020 = Some 503 ∧ dict_of s' 0 !! 2020 = Some 385.
Proof. do 2 eexists. split_and!; by vm_compute. Qed.

Lemma process_input_keeps_sole_chunk_value_witness :
  ∃ merged,
    @process_input decimal_builtins [chunk_analyst_2019; chunk_dev_2020]
      (str "developer") = Ok merged ∧
    dict_of merged 1 !! 2019 = Some 1.
Proof.
  destruct (@process_input_keeps_sole_chunk_value decimal_builtins
              [chunk_analyst_2019; chunk_dev_2020] (str "developer")
              [({[2019 := 60]}, {[2019 := 1]}, {[2019 := 0]}, {[2019 := 0]});
               ({[2020 := 150]}, {[2020 := 1]}, {[2020 := 150]}, {[2020 := 1]})])
    as (merged & Hm & Hk).
  - done.
  - repeat constructor; by vm_compute.
  - exists merged. split; [exact Hm|].
    destruct (Hk 1%nat 2019) as [_ Hsole].
    apply (Hsole 0%nat ({[2019 := 60]}, {[2019 := 1]}, {[2019 := 0]}, {[2019 := 0]}) 1).
    + reflexivity.
    + reflexivity.
    + intros [|[|j]] c' Hj Hc'; [done| |done].
      injection Hc' as <-. reflexivity.
Defined.

(** C2, where the code differs: the same two chunks in the two orders give
    different statistics, since the chunk merged last overwrites the year
    they share. *)
Lemma process_input_order_matters :
  @process_input decimal_builtins [chunk_dev_2020; chunk_two_2020] (str "developer")
  ≠ @process_input decimal_builtins [chunk_two_2020; chunk_dev_2020] (str "developer").
Proof.
  intros Heq.
  assert (H1 : (fun r => match r with Ok s => dict_of s 1 !! 2020 | Err _ => None end)
            (@process_input decimal_builtins [chunk_dev_2020; chunk_two_2020] (str "developer"))
          = Some 2) by (by vm_compute).
  rewrite Heq in H1. vm_compute in H1. discriminate H1.
Qed.

(** C2, as the code has it: merging is associative, whatever the pool
    results hold, and it does not depend on the order of chunk results
    whose keys are pairwise disjoint. *)
Theorem unite_assoc_and_comm_on_disjoint_keys :
  (∀ A B C : res statistics, unite [unite [A; B]; C] = unite [A; B; C]) ∧
  (∀ chunks chunks' : list statistics,
     chunks ≡ₚ chunks' → pairwise_disjoint chunks →
     unite (Ok <$> chunks) = unite (Ok <$> chunks')).
Proof.
  split.
  - intros A B C. rewrite !unite_united.
    destruct A as [a|e], B as [b|e'], C as [c|e'']; reflexivity.
  - intros chunks chunks' Hp Hd.
    destruct chunks as [|c chunks].
    + apply Permutation_nil_l in Hp as ->. done.
    + assert (chunks' ≠ []) as Hne.
      { intros ->. by apply Permutation_nil_r in Hp. }
      rewrite !unite_chunks_from_empty by done.
      f_equal. by apply foldl_update4_perm.
Qed.

Lemma unite_assoc_and_comm_on_disjoint_keys_witness :
  unite (Ok <$> [({[2019 := 60]}, {[2019 := 1]}, ∅, ∅);
                 ({[2020 := 150]}, {[2020 := 1]}, ∅, ∅)])
  = unite (Ok <$> [({[2020 := 150]}, {[2020 := 1]}, ∅, ∅);
                   ({[2019 := 60]}, {[2019 := 1]}, ∅, ∅)]).
Proof.
  apply (proj2 unite_assoc_and_comm_on_disjoint_keys).
  - apply perm_swap.
  - simpl. split_and!; [|done|done]. constructor; [|constructor].
    intros [|[|[|k]]]; simpl; try apply map_disjoint_empty_l.
    + by apply map_disjoint_singleton_l, lookup_singleton_ne.
    + by apply map_disjoint_singleton_l, lookup_singleton_ne.
Defined.

(** ** The chunk aggregator *)

Section Chunks.
Context `{!Builtins}.

(** What a successful [get_statistics] went through. *)
Lemma get_statistics_Ok file vacancy_name s :
  get_statistics file vacancy_name = Ok s ↔
  ∃ rows vs,
    csv_reader file = Ok rows ∧
    Forall2 (fun row v => Vacancy_init row = Ok v) rows vs ∧
    finalize (foldl (account vacancy_name) no_accumulators vs) = Ok s.
Proof.
  unfold get_statistics. rewrite bind_Ok. split.
  - intros (rows & Hrows & Hs). apply bind_Ok in Hs as (acc & Hacc & Hs).
    apply accumulate_Ok in Hacc as (vs & Hvs & ->). by exists rows, vs.
  - intros (rows & vs & Hrows & Hvs & Hs). exists rows. split; [done|].
    apply bind_Ok. eexists. split; [|exact Hs]. apply accumulate_Ok. by exists vs.
Qed.

Lemma get_statistics_target_years_known file vacancy_name s :
  get_statistics file vacancy_name = Ok s → target_years_known s.
Proof.
  intros (rows & vs & _ & _ & Hs)%get_statistics_Ok.
  destruct s as [[[s0 s1] s2] s3].
  apply finalize_Ok in Hs as (H0 & _ & Hnil & Hcons).
  unfold target_years_known. simpl.
  destruct (decide (salary_of_vacancy_name
                      (foldl (account vacancy_name) no_accumulators vs) = []))
    as [Hn|Hn].
  - destruct (Hnil Hn) as (-> & -> & _). by rewrite H0.
  - destruct (Hcons Hn) as [-> ->]. rewrite H0.
    rewrite keys_salary, keys_salary_of_vacancy_name. simpl.
    assert (list_to_set (year <$> filter (matches vacancy_name) vs)
            ⊆@{gset Z} list_to_set (year <$> vs)) as Hsub.
    { intros y. rewrite !elem_of_list_to_set, !list_elem_of_fmap.
      intros (v & -> & Hv%list_elem_of_filter). exists v. tauto. }
    unfold keys at 1 3. simpl. set_solver.
Qed.

Lemma update4_target_years_known a t :
  target_years_known a → target_years_known t → target_years_known (update4 a t).
Proof.
  unfold target_years_known. rewrite !dict_of_update4, !dom_union_L. set_solver.
Qed.

(** C9: the years of the two dicts for the profession are years of the
    dict of salaries, in what [get_statistics] returns for any chunk, and
    in what the merge returns when each merged chunk result has the
    property. *)
Theorem target_years_known_kept :
  (∀ file vacancy_name s,
     get_statistics file vacancy_name = Ok s → target_years_known s) ∧
  (∀ outcomes s,
     (∀ t, Ok t ∈ outcomes → target_years_known t) →
     unite outcomes = Ok s → target_years_known s).
Proof.
  split; [apply get_statistics_target_years_known|].
  intros outcomes s Hall (c & chunks & -> & ->)%unite_Ok_inv.
  assert (target_years_known c) as Hc by (apply Hall; left).
  assert (Forall target_years_known chunks) as Hchunks.
  { apply Forall_forall. intros t Hin. apply Hall. right.
    apply list_elem_of_fmap. by exists t. }
  clear Hall. revert c Hc.
  induction Hchunks as [|t chunks Ht _ IH]; intros c Hc; simpl; [done|].
  apply IH. by apply update4_target_years_known.
Qed.

(** C4, as the code has it: when no row of a chunk passes the reader's
    filter, the loop over areas has nothing to divide, and
    [get_statistics] returns four empty dicts without error; a run over
    such chunks prints four empty dicts. *)
Theorem no_valid_rows_no_error (files : list csv_file) (vacancy_name : pystr) :
  files ≠ [] →
  (∀ file, file ∈ files →
     ∃ titles rows, file = titles :: rows ∧ filter (row_ok titles) rows = []) →
  (∀ file, file ∈ files → get_statistics file vacancy_name = Ok (∅, ∅, ∅, ∅)) ∧
  process_input files vacancy_name = Ok (∅, ∅, ∅, ∅).
Proof.
  intros Hne Hfiles.
  assert (∀ file, file ∈ files → get_statistics file vacancy_name = Ok (∅, ∅, ∅, ∅))
    as Hstat.
  { intros file (titles & rows & -> & Hrows)%Hfiles.
    unfold get_statistics, csv_reader. by rewrite Hrows. }
  split; [done|].
  rewrite (process_input_chunks files vacancy_name
             (replicate (length files) (∅, ∅, ∅, ∅))).
  - destruct files as [|file files]; [done|].
    change (replicate (length (file :: files)) (∅, ∅, ∅, ∅) : list statistics)
      with ((∅, ∅, ∅, ∅) :: replicate (length files) (∅, ∅, ∅, ∅) : list statistics).
    rewrite (unite_chunks (∅, ∅, ∅, ∅)). f_equal.
    generalize (length files). intros n. induction n as [|n IH]; simpl; [done|].
    rewrite (update4_no_statistics (∅, ∅, ∅, ∅)). exact IH.
  - clear Hne Hfiles. induction files as [|file files IH]; simpl; constructor.
    + apply Hstat. left.
    + apply IH. intros f Hf. apply Hstat. by right.
Qed.

End Chunks.

(** C4, where the code differs: a chunk with a header and no row has no
    valid row, and neither [get_statistics] nor the whole run raises. *)
Lemma no_valid_rows_is_not_an_error :
  @csv_reader chunk_header_only = Ok [] ∧
  @get_statistics decimal_builtins chunk_header_only (str "developer")
    = Ok (∅, ∅, ∅, ∅) ∧
  @process_input decimal_builtins [chunk_header_only] (str "developer")
    = Ok (∅, ∅, ∅, ∅).
Proof. split_and!; by vm_compute. Qed.

Lemma no_valid_rows_no_error_witness :
  @process_input decimal_builtins [chunk_header_only; chunk_header_only]
    (str "developer") = Ok (∅, ∅, ∅, ∅).
Proof.
  apply (@no_valid_rows_no_error decimal_builtins).
  - done.
  - intros file Hin. exists titles, [].
    apply elem_of_cons in Hin as [->|Hin]; [done|].
    apply elem_of_cons in Hin as [->|Hin]; [done|].
    by apply elem_of_nil in Hin.
Defined.

Lemma target_years_known_kept_witness :
  target_years_known ({[2020 := 150]}, {[2020 := 1]}, {[2020 := 150]}, {[2020 := 1]}) ∧
  target_years_known ({[2020 := 503]}, {[2020 := 2]}, {[2020 := 400]}, {[2020 := 1]}).
Proof.
  destruct (@target_years_known_kept decimal_builtins) as [Hchunk Hmerge].
  split.
  - apply (Hchunk chunk_dev_2020 (str "developer")). by vm_compute.
  - apply (Hmerge [Ok ({[2020 := 150]}, {[2020 := 1]}, {[2020 := 150]}, {[2020 := 1]});
                   Ok ({[2020 := 503]}, {[2020 := 2]}, {[2020 := 400]}, {[2020 := 1]})]).
    + intros t Hin.
      apply elem_of_cons in Hin as [[= ->]|Hin];
        [apply (Hchunk chunk_dev_2020 (str "developer")); by vm_compute|].
      apply elem_of_cons in Hin as [[= ->]|Hin];
        [apply (Hchunk chunk_two_2020 (str "developer")); by vm_compute|].
      by apply elem_of_nil in Hin.
    + by vm_compute.
Defined.

(** ** The fallback for a profession no row matches *)

Lemma update4_zero_target a t :
  zero_target a → zero_target t → zero_target (update4 a t).
Proof.
  intros (Ha2 & Ha3 & Hz2 & Hz3) (Ht2 & Ht3 & Hy2 & Hy3).
  unfold zero_target. rewrite !dict_of_update4, !dom_union_L, Ha2, Ha3, Ht2, Ht3.
  split_and!; [done|done| |];
    intros k z [Hk|[_ Hk]]%lookup_union_Some_raw; eauto.
Qed.

Lemma filter_nil_intro {A} (P : A → Prop) `{!∀ x, Decision (P x)} (l : list A) :
  (∀ x, x ∈ l → ¬ P x) → filter P l = [].
Proof.
  intros Hl. destruct (filter P l) as [|x l'] eqn:Hf; [done|].
  assert (x ∈ filter P l) as [Hx Hin]%list_elem_of_filter by (rewrite Hf; left).
  by destruct (Hl x Hin).
Qed.

Section Fallback.
Context `{!Builtins}.

Lemma get_statistics_zero_target file vacancy_name s :
  get_statistics file vacancy_name = Ok s →
  (∀ rows row x, csv_reader file = Ok rows → row ∈ rows →
                 Vacancy_init row = Ok x → ¬ matches vacancy_name x) →
  zero_target s.
Proof.
  intros (rows & vs & Hrows & Hvs & Hs)%get_statistics_Ok Hno.
  destruct s as [[[s0 s1] s2] s3].
  apply finalize_Ok in Hs as (H0 & _ & Hnil & _).
  destruct Hnil as (H2 & H3 & Hz2 & Hz3).
  { apply salary_of_vacancy_name_nil. split; [done|].
    apply filter_nil_intro. intros x [i Hi]%list_elem_of_lookup.
    destruct (Forall2_lookup_r _ _ _ _ _ Hvs Hi) as (row & Hrow & Hx).
    eapply Hno; [done| |done]. by eapply list_elem_of_lookup_2. }
  unfold zero_target. simpl. by rewrite H0, H2, H3.
Qed.

(** C3, as the code has it: the fallback is taken chunk by chunk. When no
    row of any chunk matches the profession, the two dicts printed for it
    have the years of the dict of salaries, each with [0]. Within a chunk
    that has a matching row, the years of the chunk's two dicts for the
    profession are the years of its matching rows. *)
Theorem target_fallback_per_chunk :
  (∀ (files : list csv_file) vacancy_name s,
     process_input files vacancy_name = Ok s →
     (∀ file rows row x,
        file ∈ files → csv_reader file = Ok rows → row ∈ rows →
        Vacancy_init row = Ok x → ¬ matches vacancy_name x) →
     zero_target s) ∧
  (∀ (file : csv_file) vacancy_name rows vs s,
     csv_reader file = Ok rows →
     Forall2 (fun row x => Vacancy_init row = Ok x) rows vs →
     get_statistics file vacancy_name = Ok s →
     (∃ x, x ∈ vs ∧ matches vacancy_name x) →
     ∀ y, (y ∈ dom (dict_of s 2) ↔
             ∃ x, x ∈ vs ∧ matches vacancy_name x ∧ year x = y) ∧
          (y ∈ dom (dict_of s 3) ↔
             ∃ x, x ∈ vs ∧ matches vacancy_name x ∧ year x = y)).
Proof.
  split.
  - intros files vacancy_name s Hs Hno. unfold process_input in Hs.
    pose proof Hs as (c & chunks & Hout & ->)%unite_Ok_inv.
    assert (∀ t, t ∈ c :: chunks → zero_target t) as Hall.
    { intros t Hin.
      assert (Ok t ∈ (fun file => get_statistics file vacancy_name) <$> files)
        as (file & Ht & Hfile)%list_elem_of_fmap.
      { rewrite Hout. apply list_elem_of_fmap. by exists t. }
      eapply get_statistics_zero_target; [done|]. intros rows row x. by apply Hno. }
    clear Hs Hout Hno.
    assert (zero_target c) as Hc by (apply Hall; left).
    assert (Forall zero_target chunks) as Hchunks.
    { apply Forall_forall. intros t Hin. apply Hall. by right. }
    clear Hall. revert c Hc.
    induction Hchunks as [|t chunks Ht _ IH]; intros c Hc; simpl; [done|].
    apply IH. by apply update4_zero_target.
  - intros file vacancy_name rows vs s Hrows Hvs Hs [x0 [Hx0 Hm0]] y.
    apply get_statistics_Ok in Hs as (rows' & vs' & Hrows' & Hvs' & Hs).
    assert (rows' = rows) as -> by congruence.
    assert (vs' = vs) as ->.
    { clear -Hvs Hvs'. revert vs' Hvs'.
      induction Hvs as [|row x rows vs Hx _ IH]; intros vs' Hvs'.
      - by apply Forall2_nil_inv_l in Hvs'.
      - apply Forall2_cons_inv_l in Hvs' as (x' & vs'' & Hx' & Hvs' & ->).
        f_equal; [congruence|by apply IH]. }
    destruct s as [[[s0 s1] s2] s3].
    apply finalize_Ok in Hs as (_ & _ & _ & Hcons).
    destruct Hcons as [H2 H3].
    { intros Hn%salary_of_vacancy_name_nil. destruct Hn as [_ Hn].
      assert (x0 ∈ filter (matches vacancy_name) vs) as Hin
        by (by apply list_elem_of_filter).
      rewrite Hn in Hin. by apply elem_of_nil in Hin. }
    simpl. rewrite H2, H3, keys_salary_of_vacancy_name.
    assert (∀ z, z ∈ keys (salary_of_vacancy_name no_accumulators)
                     ∪ list_to_set (year <$> filter (matches vacancy_name) vs)
                 ↔ ∃ x, x ∈ vs ∧ matches vacancy_name x ∧ year x = z) as Hiff.
    { intros z. rewrite elem_of_union, elem_of_list_to_set, list_elem_of_fmap.
      split.
      - intros [Hin|(x & -> & [Hm Hin]%list_elem_of_filter)].
        + by apply elem_of_empty in Hin.
        + by exists x.
      - intros (x & Hin & Hm & <-). right. exists x. split; [done|].
        by apply list_elem_of_filter. }
    split; apply Hiff.
Qed.

End Fallback.

(** C3, where the code differs: a chunk of 2019 with no developer and a
    chunk of 2020 with one. A row matches, no row of 2019 does, and 2019
    is still in both dicts for the profession, with [0]. *)
Lemma unmatched_year_kept_with_zero :
  ∃ s,
    @process_input decimal_builtins [chunk_analyst_2019; chunk_dev_2020]
      (str "developer") = Ok s ∧
    dict_of s 2 !! 2019 = Some 0 ∧ dict_of s 3 !! 2019 = Some 0 ∧
    dict_of s 2 !! 2020 = Some 150 ∧ dict_of s 3 !! 2020 = Some 1.
Proof. eexists. split_and!; by vm_compute. Qed.

Lemma target_fallback_per_chunk_witness :
  zero_target ({[2019 := 60]}, {[2019 := 1]}, {[2019 := 0]}, {[2019 := 0]}).
Proof.
  apply (proj1 (@target_fallback_per_chunk decimal_builtins)
           [chunk_analyst_2019] (str "developer")).
  - by vm_compute.
  - intros file rows row' x Hfile Hrows Hrow Hx.
    apply elem_of_cons in Hfile as [->|Hfile]; [|by apply elem_of_nil in Hfile].
    vm_compute in Hrows. injection Hrows as <-.
    apply elem_of_cons in Hrow as [->|Hrow]; [|by apply elem_of_nil in Hrow].
    vm_compute in Hx. injection Hx as <-.
    intros Hm. apply Hm. by vm_compute.
Defined.

(** ** Floats as fractions, and the average in IEEE 754 arithmetic *)

Lemma float_den_pos f : 0 < float_den f.
Proof. destruct f; simpl; [lia..|]. apply Z.pow_pos_nonneg; lia. Qed.

Lemma int_of_float_quot f :
  is_finite f = true →
  int_of_float f = Ok (Z.quot (float_num f) (float_den f)).
Proof.
  destruct f as [s|s| |s m e]; try done;
    cbn [float_num float_den int_of_float floor_of_float]; intros _; f_equal.
  destruct (Z.le_gt_cases 0 e) as [He|He].
  - rewrite Z.max_l, Z.max_r by lia. rewrite Z.pow_0_r, Z.quot_1_r.
    rewrite Z.shiftl_mul_pow2 by lia. destruct s; simpl; lia.
  - rewrite Z.max_r, Z.max_l by lia. rewrite Z.pow_0_r, Z.mul_1_r.
    rewrite <- (Z.opp_involutive e) at 1. rewrite Z.shiftl_opp_r.
    rewrite Z.shiftr_div_pow2 by lia.
    assert (0 < 2 ^ (- e)) by (apply Z.pow_pos_nonneg; lia).
    destruct s; simpl.
    + change (Z.neg m) with (- Z.pos m). rewrite Z.quot_opp_l by lia.
      by rewrite Z.quot_div_nonneg by lia.
    + by rewrite Z.quot_div_nonneg by lia.
Qed.

Lemma floor_of_float_div f :
  is_finite f = true →
  floor_of_float f = Ok (float_num f / float_den f).
Proof.
  destruct f as [s|s| |s m e]; try done;
    cbn [float_num float_den int_of_float floor_of_float]; intros _; f_equal.
  destruct (Z.le_gt_cases 0 e) as [He|He].
  - rewrite Z.max_l, Z.max_r by lia. rewrite Z.pow_0_r, Z.div_1_r.
    by rewrite Z.shiftl_mul_pow2 by lia.
  - rewrite Z.max_r, Z.max_l by lia. rewrite Z.pow_0_r, Z.mul_1_r.
    rewrite <- (Z.opp_involutive e) at 1. rewrite Z.shiftl_opp_r.
    by rewrite Z.shiftr_div_pow2 by lia.
Qed.

(** Truncated and floored quotients of integers. *)
Lemma quot_vs_div a b :
  0 < b →
  (0 ≤ a ∨ a mod b = 0 → Z.quot a b = a / b) ∧
  (a < 0 → a mod b ≠ 0 → Z.quot a b = a / b + 1).
Proof.
  intros Hb.
  destruct (Z.le_gt_cases 0 a) as [Ha|Ha].
  - split; [intros _; by apply Z.quot_div_nonneg|lia].
  - assert (Z.quot a b = - (- a / b)) as Hq.
    { pose proof (Z.quot_opp_l (- a) b ltac:(lia)) as Hopp.
      rewrite Z.opp_involutive in Hopp. rewrite Hopp.
      f_equal. apply Z.quot_div_nonneg; lia. }
    rewrite Hq. split.
    + intros [?|Hz]; [lia|].
      rewrite (Z_div_zero_opp_full a b) by (lia || done). lia.
    + intros _ Hnz. rewrite (Z_div_nz_opp_full a b) by (lia || done). lia.
Qed.

Lemma float_of_int_Ok z f :
  float_of_int z = Ok f ↔
  not_infinity (binary_normalize prec emax z 0 false) ∧
  f = binary_normalize prec emax z 0 false.
Proof.
  unfold float_of_int, not_infinity.
  destruct (binary_normalize prec emax z 0 false) as [s|s| |s m e].
  all: split; [intros [= <-]; by split|intros [Hni ->]; try done].
  by destruct (Hni s).
Qed.

Lemma int_truediv_2_Ok a f :
  int_truediv a 2 = Ok f ↔
  if decide (a = 0) then f = S754_zero false
  else not_infinity f ∧
       f = SFdiv prec emax (S754_finite (a <? 0) (Z.to_pos (Z.abs a)) 0)
                           (S754_finite false 2 0).
Proof.
  unfold int_truediv, not_infinity. rewrite decide_False by lia.
  destruct (decide (a = 0)) as [->|Ha].
  - split; [by intros [= <-]|by intros ->].
  - change (2 <? 0) with false.
    destruct (SFdiv prec emax _ _) as [s|s| |s m e].
    all: split; [intros [= <-]; by split|intros [Hni ->]; try done].
    by destruct (Hni s).
Qed.

Lemma average_formula rate n x :
  (p ← py_mul rate (PyInt n); py_truediv p (PyInt 2)) = Ok x ↔
  ∃ avg, x = PyFloat avg ∧ half_of_product rate n avg.
Proof.
  destruct rate as [k|r]; cbn [py_mul half_of_product mbind res_bind to_float].
  - cbn [py_truediv]. split.
    + intros (f & Hf & [= <-])%bind_Ok. exists f. split; [done|].
      by apply int_truediv_2_Ok.
    + intros (avg & -> & Havg). apply int_truediv_2_Ok in Havg.
      by rewrite Havg.
  - split.
    + intros (p & Hp & Hx)%bind_Ok.
      apply bind_Ok in Hp as (b & [Hni ->]%float_of_int_Ok & [= <-]).
      cbn in Hx. injection Hx as <-. eexists. split; [done|]. by split.
    + intros (avg & -> & Hni & ->).
      assert (float_of_int n = Ok (binary_normalize prec emax n 0 false)) as ->
        by (by apply float_of_int_Ok).
      reflexivity.
Qed.

Lemma int_of_float_Ok f z :
  int_of_float f = Ok z ↔
  is_finite f = true ∧ z = Z.quot (float_num f) (float_den f).
Proof.
  split.
  - intros Hz. assert (is_finite f = true) as Hf by (by destruct f).
    split; [done|]. rewrite (int_of_float_quot f Hf) in Hz. by injection Hz.
  - intros [Hf ->]. by apply int_of_float_quot.
Qed.

(** The number of binary digits of a positive integer, and of its
    multiples by powers of two. *)
Lemma digits2_pos_lower p : 2 ^ (Z.pos (digits2_pos p) - 1) ≤ Z.pos p.
Proof.
  induction p as [p IH|p IH|]; cbn [digits2_pos].
  - rewrite Pos2Z.inj_succ. replace (Z.succ (Z.pos (digits2_pos p)) - 1)
      with (Z.succ (Z.pos (digits2_pos p) - 1)) by lia.
    rewrite Z.pow_succ_r by lia. lia.
  - rewrite Pos2Z.inj_succ. replace (Z.succ (Z.pos (digits2_pos p)) - 1)
      with (Z.succ (Z.pos (digits2_pos p) - 1)) by lia.
    rewrite Z.pow_succ_r by lia. lia.
  - reflexivity.
Qed.

Lemma digits2_pos_bound p : Z.pos p < 2 ^ 53 → Z.pos (digits2_pos p) ≤ 53.
Proof.
  intros Hp. pose proof (digits2_pos_lower p) as Hlow.
  destruct (Z.le_gt_cases (Z.pos (digits2_pos p)) 53) as [|Hgt]; [assumption|].
  assert (2 ^ 53 <= 2 ^ (Z.pos (digits2_pos p) - 1)) by (apply Z.pow_le_mono_r; lia).
  lia.
Qed.

Lemma Zdigits2_double x : 0 < x → Zdigits2 (2 * x) = Zdigits2 x + 1.
Proof.
  destruct x as [|x|x]; try lia. intros _.
  change (2 * Z.pos x) with (Z.pos x~0). cbn [Zdigits2 digits2_pos]. lia.
Qed.

Lemma Zdigits2_shift p k :
  0 ≤ k → Zdigits2 (Z.pos p * 2 ^ k) = Z.pos (digits2_pos p) + k.
Proof.
  intros Hk. revert k Hk. apply natlike_ind.
  - rewrite Z.pow_0_r, Z.mul_1_r. cbn [Zdigits2]. lia.
  - intros k Hk IH. rewrite Z.pow_succ_r by lia.
    replace (Z.pos p * (2 * 2 ^ k)) with (2 * (Z.pos p * 2 ^ k)) by lia.
    rewrite Zdigits2_double, IH; [lia|].
    apply Z.mul_pos_pos; [lia|]. apply Z.pow_pos_nonneg; lia.
Qed.

(** An integer of at most 53 binary digits divided by two: the mantissa
    is shifted to 53 digits and the exponent lowered, nothing is rounded. *)
Lemma SFdiv_half s p :
  Z.pos (digits2_pos p) ≤ 53 →
  SFdiv prec emax (S754_finite s p 0) (S754_finite false 2 0)
  = S754_finite s (Z.to_pos (Z.pos p * 2 ^ (53 - Z.pos (digits2_pos p))))
                  (Z.pos (digits2_pos p) - 54).
Proof.
  intros HD. set (D := Z.pos (digits2_pos p)) in *.
  assert (0 < D) as HD0 by (unfold D; lia).
  set (Q' := Z.pos p * 2 ^ (53 - D)).
  assert (0 < Q') as HQ' by (apply Z.mul_pos_pos; [lia|]; apply Z.pow_pos_nonneg; lia).
  assert (Zdigits2 Q' = 53) as HdQ' by (unfold Q'; rewrite Zdigits2_shift by lia; fold D; lia).
  assert (Z.pos p * 2 ^ (55 - D) = 2 * (2 * Q')) as Hm'.
  { unfold Q'. replace (55 - D) with (Z.succ (Z.succ (53 - D))) by lia.
    rewrite !Z.pow_succ_r by lia. lia. }
  cbn [SFdiv].
  assert (SFdiv_core_binary prec emax (Z.pos p) 0 2 0 = (2 * Q', D - 55, loc_Exact))
    as ->.
  { unfold SFdiv_core_binary. cbn [Zdigits2 digits2_pos]. fold D.
    replace (Z.min (fexp prec emax (D + 0 - (Z.pos (Pos.succ 1) + 0))) (0 - 0))
      with (D - 55) by (unfold fexp, emin, prec, emax; lia).
    replace (0 - 0 - (D - 55)) with (55 - D) by lia.
    destruct (55 - D) as [|k|k] eqn:Hk; try lia. cbv beta iota.
    rewrite Z.shiftl_mul_pow2 by lia. rewrite Hm'.
    pose proof (Z.div_eucl_eq (2 * (2 * Q')) 2 ltac:(lia)) as Heq.
    pose proof (Z.mod_pos_bound (2 * (2 * Q')) 2 ltac:(lia)) as Hmod.
    unfold Z.modulo in Hmod.
    destruct (Z.div_eucl (2 * (2 * Q')) 2) as [q r].
    assert (r = 0) as -> by lia. assert (q = 2 * Q') as -> by lia.
    reflexivity. }
  unfold binary_round_aux.
  assert (shr_fexp prec emax (2 * Q') (D - 55) loc_Exact
          = ({| shr_m := Q'; shr_r := false; shr_s := false |}, D - 54)) as ->.
  { unfold shr_fexp. rewrite Zdigits2_double, HdQ' by lia.
    replace (fexp prec emax (53 + 1 + (D - 55)) - (D - 55)) with 1
      by (unfold fexp, emin, prec, emax; lia).
    cbn [shr iter_pos shr_record_of_loc]. f_equal; [|lia].
    destruct Q' as [|q'|q']; try lia. reflexivity. }
  cbn [shr_m loc_of_shr_record round_nearest_even].
  assert (shr_fexp prec emax Q' (D - 54) loc_Exact
          = ({| shr_m := Q'; shr_r := false; shr_s := false |}, D - 54)) as ->.
  { unfold shr_fexp. rewrite HdQ'.
    replace (fexp prec emax (53 + (D - 54)) - (D - 54)) with 0
      by (unfold fexp, emin, prec, emax; lia).
    reflexivity. }
  cbn [shr_m]. destruct Q' as [|q'|q'] eqn:HQ; try lia.
  replace (D - 54 <=? emax - prec) with true
    by (symmetry; apply Z.leb_le; unfold emax, prec; lia).
  cbn [xorb]. rewrite Bool.xorb_false_r. reflexivity.
Qed.

(** An integer below [2 ^ 53] in absolute value is halved without
    rounding. *)
Lemma half_of_product_exact k n avg :
  half_of_product (PyInt k) n avg →
  Z.abs (k * n) < 2 ^ 53 →
  is_finite avg = true ∧ 2 * float_num avg = k * n * float_den avg.
Proof.
  cbn [half_of_product]. set (a := k * n). intros Havg Ha.
  destruct (decide (a = 0)) as [Hz|Hnz].
  - subst avg. rewrite Hz. by split.
  - destruct Havg as [_ ->].
    set (p := Z.to_pos (Z.abs a)).
    assert (Z.pos p = Z.abs a) as Hp by (unfold p; rewrite Z2Pos.id; lia).
    assert (Z.pos (digits2_pos p) ≤ 53) as HD
      by (apply digits2_pos_bound; lia).
    rewrite (SFdiv_half _ p HD). split; [done|].
    set (D := Z.pos (digits2_pos p)) in *.
    assert (0 < D) as HD0 by (unfold D; lia).
    assert (0 < 2 ^ (53 - D)) as Hpow by (apply Z.pow_pos_nonneg; lia).
    cbn [float_num float_den].
    rewrite Z.max_r, Z.max_l by lia. rewrite Z.pow_0_r, Z.mul_1_r.
    rewrite Z2Pos.id by (apply Z.mul_pos_pos; lia).
    replace (- (D - 54)) with (Z.succ (53 - D)) by lia.
    rewrite Z.pow_succ_r by lia. rewrite Hp.
    destruct (Z.ltb_spec a 0); cbn [cond_Zopp]; nia.
Qed.

(** ** The record normalizer *)

Lemma united_first_Err outcomes i e :
  outcomes !! i = Some (Err e) →
  (∀ j, (j < i)%nat → ∃ t, outcomes !! j = Some (Ok t)) →
  united outcomes = Err e.
Proof.
  intros Hi Hbefore. destruct outcomes as [|o outcomes]; [done|].
  destruct i as [|i]; simpl in Hi.
  - by injection Hi as ->.
  - destruct (Hbefore 0%nat) as [t Ht]; [lia|]. injection Ht as ->. simpl.
    apply (merge_into_first_Err _ _ i); [done|].
    intros j Hj. apply (Hbefore (S j)). lia.
Qed.

Lemma united_Err outcomes e : Err e ∈ outcomes → is_Err (united outcomes).
Proof.
  intros Hin. destruct outcomes as [|[t|e'] outcomes]; simpl.
  - by eexists.
  - apply merge_into_Err. exists e. by apply elem_of_cons in Hin as [[=]|Hin].
  - by eexists.
Qed.

Section Normalizer.
Context `{!Builtins}.

Ltac step :=
  match goal with
  | |- is_Err (?x ≫= _) =>
      let E := fresh "E" in
      destruct x eqn:E; cbn [mbind res_bind]; [|by eexists]
  end.

Lemma Vacancy_init_unknown_currency (vacancy : gmap pystr pystr) c :
  vacancy !! str "salary_currency" = Some c →
  currency_to_rub !! c = None →
  is_Err (Vacancy_init vacancy).
Proof.
  intros Hc Hrate. unfold Vacancy_init.
  assert (getitem vacancy (str "salary_currency") = Ok c) as Hget
    by (unfold getitem; by rewrite Hc).
  assert (getitem currency_to_rub c = Err KeyError) as Hnone
    by (unfold getitem; by rewrite Hrate).
  do 7 step. rewrite Hget. cbn [mbind res_bind]. rewrite Hnone. by eexists.
Qed.

(** C8: a row whose currency is not in the table makes [Vacancy.__init__]
    raise; the row is not skipped, so [get_statistics] raises for the
    chunk, and so does the coordinator's merge, with the chunk's own
    exception when no earlier chunk failed. *)
Theorem unknown_currency_is_fatal
    (files : list csv_file) (vacancy_name : pystr) (i : nat)
    (titles : list pystr) (rows : list (list pystr)) (row : list pystr)
    (c : pystr) :
  files !! i = Some (titles :: rows) →
  row ∈ rows → row_ok titles row →
  row_dict titles row !! str "salary_currency" = Some c →
  currency_to_rub !! c = None →
  is_Err (Vacancy_init (row_dict titles row)) ∧
  is_Err (get_statistics (titles :: rows) vacancy_name) ∧
  is_Err (process_input files vacancy_name) ∧
  ∀ e, get_statistics (titles :: rows) vacancy_name = Err e →
       (∀ j file, (j < i)%nat → files !! j = Some file →
                  is_Ok (get_statistics file vacancy_name)) →
       process_input files vacancy_name = Err e.
Proof.
  intros Hfile Hrow Hok Hc Hrate.
  assert (is_Err (Vacancy_init (row_dict titles row))) as Hinit
    by (by eapply Vacancy_init_unknown_currency).
  assert (is_Err (get_statistics (titles :: rows) vacancy_name)) as Hstat.
  { unfold get_statistics. cbn [csv_reader mbind res_bind].
    destruct (accumulate_Err vacancy_name
                (row_dict titles <$> filter (row_ok titles) rows)
                (row_dict titles row) no_accumulators) as [e ->]; [|done|by eexists].
    apply list_elem_of_fmap. exists row. split; [done|].
    by apply list_elem_of_filter. }
  split; [done|]. split; [done|].
  assert (∀ e, get_statistics (titles :: rows) vacancy_name = Err e →
               ((fun file => get_statistics file vacancy_name) <$> files) !! i
               = Some (Err e)) as Hith.
  { intros e He. by rewrite list_lookup_fmap, Hfile, <- He. }
  split.
  - destruct Hstat as [e He]. unfold process_input. rewrite unite_united.
    apply (united_Err _ e). eapply list_elem_of_lookup_2. by apply Hith.
  - intros e He Hbefore. unfold process_input. rewrite unite_united.
    apply (united_first_Err _ i); [by apply Hith|].
    intros j Hj. rewrite list_lookup_fmap.
    destruct (files !! j) as [file|] eqn:Hj'.
    + destruct (Hbefore j file Hj Hj') as [t Ht]. exists t. simpl. by rewrite Ht.
    + apply lookup_ge_None in Hj'. apply lookup_lt_Some in Hfile. lia.
Qed.

(** C7: on a row whose two salary fields parse to finite floats, whose
    currency is in the table and whose date starts with an integer,
    [Vacancy.__init__] takes [salary_from] and [salary_to] as those floats
    cut toward zero to integers, [salary_average] as
    [rate * (salary_from + salary_to) / 2] in IEEE 754 double arithmetic
    with the rate of the row's currency, and [year] as the integer read
    from the first four characters of [published_at]. With an integer
    rate and a product below [2 ^ 53] in absolute value, the average is
    half the product exactly. *)
Theorem Vacancy_init_normalizes
    (vacancy : gmap pystr pystr) (n sf st c a d : pystr)
    (f1 f2 avg : float) (y : Z) (rate : pynum) :
  vacancy !! str "name" = Some n →
  vacancy !! str "salary_from" = Some sf →
  vacancy !! str "salary_to" = Some st →
  vacancy !! str "salary_currency" = Some c →
  vacancy !! str "area_name" = Some a →
  vacancy !! str "published_at" = Some d →
  float_of_str sf = Ok f1 → is_finite f1 = true →
  float_of_str st = Ok f2 → is_finite f2 = true →
  currency_to_rub !! c = Some rate →
  half_of_product rate
    (Z.quot (float_num f1) (float_den f1) + Z.quot (float_num f2) (float_den f2))
    avg →
  int_of_str (take 4 d) = Ok y →
  Vacancy_init vacancy =
    Ok {| name := n;
          salary_from := Z.quot (float_num f1) (float_den f1);
          salary_to := Z.quot (float_num f2) (float_den f2);
          salary_currency := c;
          salary_average := PyFloat avg; area_name := a; year := y |} ∧
  parse_year_from_date_slice d = Ok y ∧
  ∀ k, rate = PyInt k →
    Z.abs (k * (Z.quot (float_num f1) (float_den f1)
                + Z.quot (float_num f2) (float_den f2))) < 2 ^ 53 →
    is_finite avg = true ∧
    2 * float_num avg
    = k * (Z.quot (float_num f1) (float_den f1)
           + Z.quot (float_num f2) (float_den f2)) * float_den avg.
Proof.
  intros Hn Hsf Hst Hc Ha Hd Hf1 Hfin1 Hf2 Hfin2 Hrate Havg Hy.
  split; [|split; [exact Hy|]]; last first.
  { intros k -> Hsmall. by apply half_of_product_exact. }
  assert ((p ← py_mul rate
                 (PyInt (Z.quot (float_num f1) (float_den f1)
                         + Z.quot (float_num f2) (float_den f2)));
           py_truediv p (PyInt 2)) = Ok (PyFloat avg)) as Hformula
    by (apply average_formula; by exists avg).
  apply bind_Ok in Hformula as (p & Hp & Hq).
  unfold Vacancy_init, getitem, parse_year_from_date_slice.
  rewrite Hn, Hsf, Hst, Hc, Ha, Hd. cbn [mbind res_bind].
  rewrite Hf1. cbn [mbind res_bind].
  rewrite (int_of_float_quot f1 Hfin1). cbn [mbind res_bind].
  rewrite Hf2. cbn [mbind res_bind].
  rewrite (int_of_float_quot f2 Hfin2). cbn [mbind res_bind].
  rewrite Hrate. cbn [mbind res_bind].
  rewrite Hp. cbn [mbind res_bind]. rewrite Hq. cbn [mbind res_bind].
  by rewrite Hy.
Qed.

End Normalizer.

Lemma unknown_currency_is_fatal_witness :
  is_Err (@process_input decimal_builtins
            [chunk_dev_2020; chunk_unknown_currency] (str "developer")).
Proof.
  apply (@unknown_currency_is_fatal decimal_builtins
           [chunk_dev_2020; chunk_unknown_currency] (str "developer") 1%nat
           titles [row "developer" "100" "200" "GBP" "Omsk" "2020-05-01"]
           (row "developer" "100" "200" "GBP" "Omsk" "2020-05-01") (str "GBP")).
  - reflexivity.
  - left.
  - apply (bool_decide_unpack (row_ok _ _)). by vm_compute.
  - by vm_compute.
  - by vm_compute.
Defined.

Lemma Vacancy_init_normalizes_witness :
  @Vacancy_init decimal_builtins
    (row_dict titles (row "analyst" "10" "10" "USD" "Tomsk" "2020-08-01"))
  = Ok {| name := str "analyst"; salary_from := 10; salary_to := 10;
          salary_currency := str "USD";
          salary_average := PyFloat (S754_finite false 5335710027271372 (-43));
          area_name := str "Tomsk"; year := 2020 |} ∧
  @Vacancy_init decimal_builtins
    (row_dict titles (row "developer" "100" "200" "RUR" "Omsk" "2020-05-01"))
  = Ok {| name := str "developer"; salary_from := 100; salary_to := 200;
          salary_currency := str "RUR";
          salary_average := PyFloat (S754_finite false 5277655813324800 (-45));
          area_name := str "Omsk"; year := 2020 |}.
Proof.
  split.
  - apply (@Vacancy_init_normalizes decimal_builtins
             (row_dict titles (row "analyst" "10" "10" "USD" "Tomsk" "2020-08-01"))
             (str "analyst") (str "10") (str "10") (str "USD") (str "Tomsk")
             (str "2020-08-01")
             (S754_finite false 5629499534213120 (-49))
             (S754_finite false 5629499534213120 (-49))
             (S754_finite false 5335710027271372 (-43)) 2020
             (PyFloat (float_lit 6066 2))); try (by vm_compute).
  - apply (@Vacancy_init_normalizes decimal_builtins
             (row_dict titles (row "developer" "100" "200" "RUR" "Omsk" "2020-05-01"))
             (str "developer") (str "100") (str "200") (str "RUR") (str "Omsk")
             (str "2020-05-01")
             (S754_finite false 7036874417766400 (-46))
             (S754_finite false 7036874417766400 (-45))
             (S754_finite false 5277655813324800 (-45)) 2020
             (PyInt 1)); try (by vm_compute).
Defined.

(** ** The averages *)

(** C6, as the code has it: when the keys are distinct and each list has a
    finite quotient [sum(list) / len(list)] in double precision,
    [get_average_dict] returns, and maps every key to [int] of its
    quotient: the quotient cut toward zero. With the quotient written as
    a fraction of integers, that is the truncated division of the two;
    it is the floor when the quotient is not negative or is a whole
    number, and the floor plus one when the quotient is negative with a
    fractional part. *)
Theorem get_average_dict_truncates `{Countable K}
    (data : pydict K (list pynum)) :
  NoDup data.*1 →
  (∀ key l, (key, l) ∈ data → ∃ q, mean l = Ok (PyFloat q) ∧ is_finite q = true) →
  ∃ result,
    get_average_dict data = Ok result ∧
    ∀ key l, (key, l) ∈ data →
      ∃ q z,
        mean l = Ok (PyFloat q) ∧ int_of_float q = Ok z ∧
        result !! key = Some z ∧
        (is_negative q = false → floor_of_float q = Ok z) ∧
        z = Z.quot (float_num q) (float_den q) ∧
        floor_of_float q = Ok (float_num q / float_den q) ∧
        (0 ≤ float_num q ∨ float_num q mod float_den q = 0 →
           z = float_num q / float_den q) ∧
        (float_num q < 0 → float_num q mod float_den q ≠ 0 →
           z = float_num q / float_den q + 1).
Proof.
  intros Hnd Hfin.
  assert (∀ key l, (key, l) ∈ data →
            ∃ q z, mean l = Ok (PyFloat q) ∧ is_finite q = true ∧
                   int_of_float q = Ok z ∧ average l = Ok z) as Havg.
  { intros key l (q & Hq & Hf)%Hfin.
    exists q, (Z.quot (float_num q) (float_den q)).
    pose proof (int_of_float_quot q Hf) as Hz.
    split_and!; [done|done|done|]. unfold average. by rewrite Hq. }
  destruct (get_average_dict_loop_total data ∅) as [result Hres].
  { intros key l (q & z & _ & _ & _ & Hz)%Havg. by exists z. }
  exists result. split; [exact Hres|].
  intros key l Hin.
  destruct (Havg key l Hin) as (q & z & Hq & Hf & Hz & Hav).
  destruct (get_average_dict_loop_lookup data ∅ result key l Hnd Hres Hin)
    as (z' & Hav' & Hlook).
  assert (z' = z) as -> by congruence.
  pose proof (int_of_float_quot q Hf) as Hquot.
  pose proof (floor_of_float_div q Hf) as Hfloor.
  assert (z = Z.quot (float_num q) (float_den q)) as Hzq by congruence.
  destruct (quot_vs_div (float_num q) (float_den q) (float_den_pos q))
    as [Hsame Hplus].
  exists q, z. split_and!; try done.
  - intros Hneg. rewrite Hfloor, Hzq. f_equal. symmetry. apply Hsame. left.
    destruct q as [s|s| |[] m e]; try done; cbn [float_num cond_Zopp]; [lia..|].
    apply Z.mul_nonneg_nonneg; [lia|]. apply Z.pow_nonneg. lia.
  - intros Hcase. rewrite Hzq. by apply Hsame.
  - intros Hneg Hfrac. rewrite Hzq. by apply Hplus.
Qed.

(** C6, where the code differs: [int] cuts toward zero. One salary of
    [-1.5] (the row of [chunk_negative]) has the average [-1], and the
    floor of the quotient is [-2]. *)
Lemma get_average_dict_is_not_floor :
  get_average_dict [(2020, [PyFloat (S754_finite true 6755399441055744 (-52))])]
    = Ok {[2020 := -1]} ∧
  mean [PyFloat (S754_finite true 6755399441055744 (-52))]
    = Ok (PyFloat (S754_finite true 6755399441055744 (-52))) ∧
  floor_of_float (S754_finite true 6755399441055744 (-52)) = Ok (-2) ∧
  @get_statistics decimal_builtins chunk_negative (str "developer")
    = Ok ({[2020 := -1]}, {[2020 := 1]}, {[2020 := -1]}, {[2020 := 1]}).
Proof. split_and!; by vm_compute. Qed.

Lemma get_average_dict_truncates_witness :
  ∃ result,
    get_average_dict
      [(2019, [PyInt 2; PyInt 5]);
       (2020, [PyFloat (S754_finite true 6755399441055744 (-52))])] = Ok result ∧
    result !! 2019 = Some 3 ∧ result !! 2020 = Some (-1).
Proof.
  destruct (get_average_dict_truncates
              [(2019, [PyInt 2; PyInt 5]);
               (2020, [PyFloat (S754_finite true 6755399441055744 (-52))])])
    as (result & Hres & Hkeys).
  - apply (bool_decide_unpack (NoDup _)). by vm_compute.
  - intros key l Hin.
    apply elem_of_cons in Hin as [[= -> ->]|Hin];
      [eexists; split; by vm_compute|].
    apply elem_of_cons in Hin as [[= -> ->]|Hin];
      [eexists; split; by vm_compute|].
    by apply elem_of_nil in Hin.
  - exists result. split; [exact Hres|]. split.
    + destruct (Hkeys 2019 [PyInt 2; PyInt 5])
        as (q & z & Hq & _ & Hlook & _ & _ & _ & Hfloor & _); [left|].
      vm_compute in Hq. injection Hq as <-.
      rewrite Hlook, Hfloor; [done|]. left. by vm_compute.
    + destruct (Hkeys 2020 [PyFloat (S754_finite true 6755399441055744 (-52))])
        as (q & z & Hq & _ & Hlook & _ & _ & _ & _ & Hplus); [right; left|].
      vm_compute in Hq. injection Hq as <-.
      rewrite Hlook, Hplus; [done|by vm_compute|by vm_compute].
Defined.

(** * Further properties of the code *)

#[global] Instance of_year_dec y v : Decision (of_year y v).
Proof. unfold of_year. apply _. Defined.

#[global] Instance matches_dec vacancy_name v : Decision (matches vacancy_name v).
Proof. unfold matches. apply _. Defined.

(** ** [increment] as a dict operation *)

Lemma list_to_map_increment `{Countable K} {A} (d : pydict K (list A)) k v :
  as_map (increment d k v)
  = <[k := default [] (as_map d !! k) ++ v]> (as_map d).
Proof.
  unfold as_map. induction d as [|[k' v'] d IH]; simpl.
  - done.
  - destruct (decide (k' = k)) as [->|Hne]; simpl.
    + by rewrite lookup_insert_eq, insert_insert_eq.
    + rewrite IH, lookup_insert_ne by done. by apply insert_insert_ne.
Qed.

Lemma NoDup_increment `{EqDecision K} {A} (d : pydict K (list A)) k v :
  NoDup d.*1 → NoDup (increment d k v).*1.
Proof.
  induction d as [|[k' v'] d IH]; simpl; intros Hnd.
  - apply NoDup_singleton.
  - apply NoDup_cons in Hnd as [Hk' Hnd].
    destruct (decide (k' = k)) as [->|Hne]; simpl.
    + by apply NoDup_cons.
    + apply NoDup_cons. split; [|by apply IH].
      rewrite elem_of_increment_keys. intros [?|?]; [congruence|done].
Qed.

(** X1: [increment] keeps the keys of a dict distinct, extends the list
    under [key] by [value] (starting from the empty list for a new key),
    and leaves every other key as it was. *)
Theorem increment_extends_key `{Countable K} {A}
    (subject : pydict K (list A)) (key : K) (value : list A) :
  NoDup subject.*1 →
  NoDup (increment subject key value).*1 ∧
  as_map (increment subject key value) !! key
    = Some (default [] (as_map subject !! key) ++ value) ∧
  ∀ k, k ≠ key →
    as_map (increment subject key value) !! k = as_map subject !! k.
Proof.
  intros Hnd. split; [by apply NoDup_increment|].
  rewrite list_to_map_increment. split.
  - apply lookup_insert_eq.
  - intros k Hk. by apply lookup_insert_ne.
Qed.

Lemma increment_extends_key_witness :
  as_map (increment [(2019, [1]); (2020, [2])] 2020 [3]) !! 2020 = Some [2; 3].
Proof.
  destruct (increment_extends_key [(2019, [1]); (2020, [2])] 2020 [3])
    as (_ & Hkey & _).
  - apply (bool_decide_unpack (NoDup _)). by vm_compute.
  - rewrite Hkey. by vm_compute.
Defined.

(** ** What [get_statistics] accumulates *)

Lemma extended_nil {A} (o : option (list A)) : extended o [] = o.
Proof. destruct o as [l|]; simpl; [by rewrite app_nil_r|done]. Qed.

Lemma extended_cons {A} (o : option (list A)) x l :
  extended (Some (default [] o ++ [x])) l = extended o (x :: l).
Proof. destruct o, l; simpl; by rewrite <- ?app_assoc. Qed.

Lemma NoDup_salary vacancy_name vs : ∀ acc,
  NoDup (salary acc).*1 →
  NoDup (salary (foldl (account vacancy_name) acc vs)).*1.
Proof.
  induction vs as [|v vs IH]; intros acc Hnd; simpl; [done|].
  apply IH. simpl. by apply NoDup_increment.
Qed.

Lemma NoDup_salary_of_vacancy_name vacancy_name vs : ∀ acc,
  NoDup (salary_of_vacancy_name acc).*1 →
  NoDup (salary_of_vacancy_name (foldl (account vacancy_name) acc vs)).*1.
Proof.
  induction vs as [|v vs IH]; intros acc Hnd; simpl; [done|].
  apply IH. simpl. case_decide; [by apply NoDup_increment|done].
Qed.

Lemma as_map_salary vacancy_name y vs : ∀ acc,
  as_map (salary (foldl (account vacancy_name) acc vs)) !! y
  = extended (as_map (salary acc) !! y)
             (salary_average <$> filter (of_year y) vs).
Proof.
  induction vs as [|v vs IH]; intros acc; simpl.
  - by rewrite extended_nil.
  - rewrite IH. simpl. rewrite list_to_map_increment, filter_cons.
    destruct (decide (of_year y v)) as [Hy|Hy]; unfold of_year in Hy.
    + subst y. rewrite lookup_insert_eq, fmap_cons. apply extended_cons.
    + by rewrite lookup_insert_ne.
Qed.

Lemma as_map_salary_of_vacancy_name vacancy_name y vs : ∀ acc,
  as_map (salary_of_vacancy_name (foldl (account vacancy_name) acc vs)) !! y
  = extended (as_map (salary_of_vacancy_name acc) !! y)
             (salary_average <$>
                filter (of_year y) (filter (matches vacancy_name) vs)).
Proof.
  induction vs as [|v vs IH]; intros acc; simpl.
  - by rewrite extended_nil.
  - rewrite IH. simpl. rewrite (filter_cons (matches vacancy_name)).
    unfold matches at 2. destruct (decide (find (name v) vacancy_name ≠ -1)).
    + rewrite list_to_map_increment, filter_cons.
      destruct (decide (of_year y v)) as [Hy|Hy]; unfold of_year in Hy.
      * subst y. rewrite lookup_insert_eq, fmap_cons. apply extended_cons.
      * by rewrite lookup_insert_ne.
    + done.
Qed.

Lemma as_map_lens (d : pydict Z (list pynum)) :
  (list_to_map ((fun '(key, value) => (key, len value)) <$> d) : gmap Z Z)
  = len <$> as_map d.
Proof.
  unfold as_map. induction d as [|[k l] d IH].
  - symmetry. apply fmap_empty.
  - rewrite fmap_cons. cbn [list_to_map foldr fst snd uncurry].
    rewrite fmap_insert. f_equal. exact IH.
Qed.

Lemma elem_of_as_map `{Countable K} {A} (d : pydict K A) k x :
  NoDup d.*1 → (k, x) ∈ d ↔ as_map d !! k = Some x.
Proof. intros Hnd. unfold as_map. by apply elem_of_list_to_map. Qed.

Section YearStatistics.
Context `{!Builtins}.

Lemma vacancies_unique rows : ∀ vs vs',
  Forall2 (fun row v => Vacancy_init row = Ok v) rows vs →
  Forall2 (fun row v => Vacancy_init row = Ok v) rows vs' →
  vs = vs'.
Proof.
  induction rows as [|row rows IH]; intros vs vs' Hvs Hvs'.
  - apply Forall2_nil_inv_l in Hvs, Hvs'. by subst.
  - apply Forall2_cons_inv_l in Hvs as (x & l & Hx & Hl & ->).
    apply Forall2_cons_inv_l in Hvs' as (x' & l' & Hx' & Hl' & ->).
    f_equal; [congruence|by apply IH].
Qed.

Lemma get_statistics_finalize file vacancy_name rows vs :
  csv_reader file = Ok rows →
  Forall2 (fun row v => Vacancy_init row = Ok v) rows vs →
  get_statistics file vacancy_name
  = finalize (foldl (account vacancy_name) no_accumulators vs).
Proof.
  intros Hrows Hvs. unfold get_statistics. rewrite Hrows. cbn [mbind res_bind].
  assert (accumulate vacancy_name rows no_accumulators
          = Ok (foldl (account vacancy_name) no_accumulators vs)) as ->; [|done].
  apply accumulate_Ok. by exists vs.
Qed.

Lemma finalize_inv acc s :
  finalize acc = Ok s →
  get_average_dict (salary acc) = Ok (dict_of s 0) ∧
  dict_of s 1 = len <$> as_map (salary acc) ∧
  (salary_of_vacancy_name acc ≠ [] →
     get_average_dict (salary_of_vacancy_name acc) = Ok (dict_of s 2) ∧
     dict_of s 3 = len <$> as_map (salary_of_vacancy_name acc)).
Proof.
  unfold finalize. intros Hf.
  apply bind_Ok in Hf as (r0 & Hr0 & Hf).
  apply bind_Ok in Hf as (r2 & Hr2 & Hf).
  apply bind_Ok in Hf as (rc & _ & Hf).
  apply bind_Ok in Hf as (u & _ & Hf).
  injection Hf as <-. cbn [dict_of fst snd].
  split; [done|]. split; [apply as_map_lens|].
  intros Hne. destruct (salary_of_vacancy_name acc) as [|item target] eqn:Ht; [done|].
  cbn [fst snd] in *. split; [done|]. apply as_map_lens.
Qed.

(** X2: in what [get_statistics] returns for a chunk, the dict of
    vacancies by year has, under each year, the number of valid rows of
    that year, and no key for a year without a row. *)
Theorem vacancies_by_year_counts_rows
    (file : csv_file) (vacancy_name : pystr)
    (rows : list (gmap pystr pystr)) (vs : list Vacancy) (s : statistics) :
  csv_reader file = Ok rows →
  Forall2 (fun row v => Vacancy_init row = Ok v) rows vs →
  get_statistics file vacancy_name = Ok s →
  ∀ y, dict_of s 1 !! y =
         match filter (of_year y) vs with
         | [] => None
         | l => Some (len l)
         end.
Proof.
  intros Hrows Hvs Hs y.
  rewrite (get_statistics_finalize _ _ _ _ Hrows Hvs) in Hs.
  apply finalize_inv in Hs as (_ & -> & _).
  rewrite lookup_fmap, as_map_salary. cbn [no_accumulators salary as_map list_to_map foldr].
  rewrite lookup_empty.
  destruct (filter (of_year y) vs) as [|v l]; [done|].
  rewrite fmap_cons. cbn [extended default app fmap option_fmap option_map].
  f_equal. unfold len. cbn [length]. by rewrite length_fmap.
Qed.

(** X3: the dict of salaries by year has, under each year, [int] of the
    mean of the [salary_average] of that year's rows, summed in file
    order, and no key for a year without a row. *)
Theorem salary_by_year_averages_rows
    (file : csv_file) (vacancy_name : pystr)
    (rows : list (gmap pystr pystr)) (vs : list Vacancy) (s : statistics) :
  csv_reader file = Ok rows →
  Forall2 (fun row v => Vacancy_init row = Ok v) rows vs →
  get_statistics file vacancy_name = Ok s →
  ∀ y, match filter (of_year y) vs with
       | [] => dict_of s 0 !! y = None
       | l => ∃ z, average (salary_average <$> l) = Ok z ∧
                   dict_of s 0 !! y = Some z
       end.
Proof.
  intros Hrows Hvs Hs y.
  rewrite (get_statistics_finalize _ _ _ _ Hrows Hvs) in Hs.
  apply finalize_inv in Hs as (Hs0 & _ & _).
  pose proof (as_map_salary vacancy_name y vs no_accumulators) as Hmap.
  cbn [no_accumulators salary] in Hmap. unfold as_map at 2 in Hmap.
  cbn [list_to_map foldr] in Hmap. rewrite lookup_empty in Hmap.
  pose proof (NoDup_salary vacancy_name vs no_accumulators (NoDup_nil_2))
    as Hnd.
  destruct (filter (of_year y) vs) as [|v l].
  - cbn [extended fmap list_fmap] in Hmap. apply not_elem_of_dom.
    rewrite (get_average_dict_dom _ _ Hs0). unfold keys.
    rewrite elem_of_list_to_set. intros Hin.
    apply list_elem_of_fmap in Hin as ([y' l'] & Hy & Hin).
    cbn [fst] in Hy. subst y'.
    apply (elem_of_as_map _ _ _ Hnd) in Hin. congruence.
  - rewrite fmap_cons in Hmap. cbn [extended default app] in Hmap.
    rewrite <- fmap_cons in Hmap.
    apply (elem_of_as_map _ _ _ Hnd) in Hmap.
    apply (get_average_dict_loop_lookup _ _ _ _ _ Hnd Hs0 Hmap).
Qed.

(** X4: when some row of the chunk matches the profession, the two dicts
    for the profession have, under each year, the number of that year's
    matching rows and [int] of the mean of their [salary_average], and no
    key for a year without a matching row. *)
Theorem target_dicts_count_matching_rows
    (file : csv_file) (vacancy_name : pystr)
    (rows : list (gmap pystr pystr)) (vs : list Vacancy) (s : statistics) :
  csv_reader file = Ok rows →
  Forall2 (fun row v => Vacancy_init row = Ok v) rows vs →
  get_statistics file vacancy_name = Ok s →
  filter (matches vacancy_name) vs ≠ [] →
  ∀ y, match filter (of_year y) (filter (matches vacancy_name) vs) with
       | [] => dict_of s 2 !! y = None ∧ dict_of s 3 !! y = None
       | l => (∃ z, average (salary_average <$> l) = Ok z ∧
                    dict_of s 2 !! y = Some z) ∧
              dict_of s 3 !! y = Some (len l)
       end.
Proof.
  intros Hrows Hvs Hs Hmatch y.
  rewrite (get_statistics_finalize _ _ _ _ Hrows Hvs) in Hs.
  apply finalize_inv in Hs as (_ & _ & Htarget).
  destruct Htarget as [Hs2 Hs3].
  { intros Hn%salary_of_vacancy_name_nil. by destruct Hn. }
  pose proof (as_map_salary_of_vacancy_name vacancy_name y vs no_accumulators)
    as Hmap.
  cbn [no_accumulators salary_of_vacancy_name] in Hmap. unfold as_map at 2 in Hmap.
  cbn [list_to_map foldr] in Hmap. rewrite lookup_empty in Hmap.
  pose proof (NoDup_salary_of_vacancy_name vacancy_name vs no_accumulators
                (NoDup_nil_2)) as Hnd.
  rewrite Hs3, lookup_fmap, Hmap.
  destruct (filter (of_year y) (filter (matches vacancy_name) vs)) as [|v l].
  - cbn [extended fmap list_fmap] in Hmap. split; [|done]. apply not_elem_of_dom.
    rewrite (get_average_dict_dom _ _ Hs2). unfold keys.
    rewrite elem_of_list_to_set. intros Hin.
    apply list_elem_of_fmap in Hin as ([y' l'] & Hy & Hin).
    cbn [fst] in Hy. subst y'.
    apply (elem_of_as_map _ _ _ Hnd) in Hin. congruence.
  - split.
    + rewrite fmap_cons in Hmap. cbn [extended default app] in Hmap.
      rewrite <- fmap_cons in Hmap.
      apply (elem_of_as_map _ _ _ Hnd) in Hmap.
      apply (get_average_dict_loop_lookup _ _ _ _ _ Hnd Hs2 Hmap).
    + rewrite fmap_cons. cbn [extended default app fmap option_fmap option_map].
      f_equal. unfold len. cbn [length]. by rewrite length_fmap.
Qed.

End YearStatistics.

Lemma vacancies_by_year_counts_rows_witness :
  dict_of ({[2020 := 150]}, {[2020 := 1]}, {[2020 := 150]}, {[2020 := 1]}) 1
    !! 2020 = Some 1.
Proof.
  apply (@vacancies_by_year_counts_rows decimal_builtins
           chunk_dev_2020 (str "developer")
           [row_dict titles (row "developer" "100" "200" "RUR" "Omsk" "2020-05-01")]
           [dev_2020] _ eq_refl
           ltac:(repeat constructor; by vm_compute)
           ltac:(by vm_compute) 2020).
Defined.

Lemma salary_by_year_averages_rows_witness :
  ∃ z, average [salary_average dev_2020] = Ok z ∧
       dict_of ({[2020 := 150]}, {[2020 := 1]}, {[2020 := 150]}, {[2020 := 1]}) 0
         !! 2020 = Some z.
Proof.
  apply (@salary_by_year_averages_rows decimal_builtins
           chunk_dev_2020 (str "developer")
           [row_dict titles (row "developer" "100" "200" "RUR" "Omsk" "2020-05-01")]
           [dev_2020] _ eq_refl
           ltac:(repeat constructor; by vm_compute)
           ltac:(by vm_compute) 2020).
Defined.

Lemma target_dicts_count_matching_rows_witness :
  (∃ z, average [salary_average dev_2020] = Ok z ∧
        dict_of ({[2020 := 150]}, {[2020 := 1]}, {[2020 := 150]}, {[2020 := 1]}) 2
          !! 2020 = Some z) ∧
  dict_of ({[2020 := 150]}, {[2020 := 1]}, {[2020 := 150]}, {[2020 := 1]}) 3
    !! 2020 = Some 1.
Proof.
  apply (@target_dicts_count_matching_rows decimal_builtins
           chunk_dev_2020 (str "developer")
           [row_dict titles (row "developer" "100" "200" "RUR" "Omsk" "2020-05-01")]
           [dev_2020] _ eq_refl
           ltac:(repeat constructor; by vm_compute)
           ltac:(by vm_compute)
           ltac:(by vm_compute) 2020).
Defined.

(** ** More on the chunk aggregator *)

Lemma find_empty s : find s [] = 0.
Proof. unfold find. by destruct s. Qed.

Section Aggregator.
Context `{!Builtins}.

Lemma account_empty_profession vs : ∀ acc,
  salary_of_vacancy_name acc = salary acc →
  salary_of_vacancy_name (foldl (account []) acc vs)
  = salary (foldl (account []) acc vs).
Proof.
  induction vs as [|v vs IH]; intros acc Heq; simpl; [done|].
  apply IH. simpl. rewrite find_empty, Heq. by rewrite decide_True.
Qed.

(** X5: with the empty string as profession every row matches, and the
    two dicts for the profession are the two overall dicts. *)
Theorem empty_profession_matches_all (file : csv_file) (s : statistics) :
  get_statistics file [] = Ok s →
  dict_of s 2 = dict_of s 0 ∧ dict_of s 3 = dict_of s 1.
Proof.
  intros (rows & vs & _ & _ & Hs)%get_statistics_Ok.
  pose proof (account_empty_profession vs no_accumulators eq_refl) as Heq.
  unfold finalize in Hs. rewrite Heq in Hs.
  apply bind_Ok in Hs as (r0 & Hr0 & Hs).
  apply bind_Ok in Hs as (r2 & Hr2 & Hs).
  apply bind_Ok in Hs as (rc & _ & Hs).
  apply bind_Ok in Hs as (u & _ & Hs).
  injection Hs as <-. cbn [dict_of fst snd].
  destruct (salary (foldl (account []) no_accumulators vs)) as [|item items];
    cbn [fst snd] in *.
  - injection Hr0 as <-. injection Hr2 as <-. split; [done|]. apply fmap_empty.
  - split; [congruence|done].
Qed.

(** X6: every dict [csv_reader] yields has the titles of the header as its
    keys, and no empty string as a value. *)
Theorem csv_reader_dicts_are_complete
    (file : csv_file) (rows : list (gmap pystr pystr)) (d : gmap pystr pystr) :
  csv_reader file = Ok rows → d ∈ rows →
  ∃ titles, head file = Some titles ∧
    dom d = list_to_set titles ∧
    ∀ k v, d !! k = Some v → v ≠ [].
Proof.
  destruct file as [|titles raw]; [done|]. intros [= <-].
  intros (row & -> & [[Hne Hlen] Hin]%list_elem_of_filter)%list_elem_of_fmap.
  exists titles. split; [done|]. unfold row_dict. split.
  - rewrite dom_list_to_map_L, fmap_reverse, fst_zip by lia.
    apply set_eq. intros k. by rewrite !elem_of_list_to_set, elem_of_reverse.
  - intros k v Hk%elem_of_list_to_map_2.
    apply elem_of_reverse, elem_of_zip_r in Hk. by intros ->.
Qed.

(** X7: a row with an empty field, or with another number of fields than
    the header, is skipped: the chunk gives the same result with the row
    and without it. *)
Theorem skipped_row_changes_nothing
    (titles : list pystr) (before after : list (list pystr))
    (row : list pystr) (vacancy_name : pystr) :
  ¬ row_ok titles row →
  get_statistics (titles :: before ++ row :: after) vacancy_name
  = get_statistics (titles :: before ++ after) vacancy_name.
Proof.
  intros Hbad. unfold get_statistics, csv_reader.
  by rewrite !filter_app, filter_cons_False.
Qed.

Lemma accumulate_first_Err vacancy_name before row after e : ∀ acc,
  Forall (fun r => is_Ok (Vacancy_init r)) before →
  Vacancy_init row = Err e →
  accumulate vacancy_name (before ++ row :: after) acc = Err e.
Proof.
  induction before as [|r before IH]; intros acc Hbefore Hrow; simpl.
  - by rewrite Hrow.
  - apply Forall_cons in Hbefore as [[v ->] Hbefore]. simpl. by apply IH.
Qed.

(** X8: [get_statistics] raises the exception of the first row, in file
    order, that [Vacancy] does not take; the rows after it are not
    read. *)
Theorem first_bad_row_decides
    (file : csv_file) (vacancy_name : pystr)
    (before after : list (gmap pystr pystr)) (row : gmap pystr pystr) (e : exn) :
  csv_reader file = Ok (before ++ row :: after) →
  Forall (fun r => is_Ok (Vacancy_init r)) before →
  Vacancy_init row = Err e →
  get_statistics file vacancy_name = Err e.
Proof.
  intros Hrows Hbefore Hrow. unfold get_statistics. rewrite Hrows.
  cbn [mbind res_bind]. by rewrite (accumulate_first_Err _ _ _ _ e).
Qed.

End Aggregator.

Lemma empty_profession_matches_all_witness :
  dict_of ({[2019 := 60]}, {[2019 := 1]}, {[2019 := 60]}, {[2019 := 1]}) 2
    = dict_of ({[2019 := 60]}, {[2019 := 1]}, {[2019 := 60]}, {[2019 := 1]}) 0 ∧
  dict_of ({[2019 := 60]}, {[2019 := 1]}, {[2019 := 60]}, {[2019 := 1]}) 3
    = dict_of ({[2019 := 60]}, {[2019 := 1]}, {[2019 := 60]}, {[2019 := 1]}) 1.
Proof.
  apply (@empty_profession_matches_all decimal_builtins chunk_analyst_2019).
  by vm_compute.
Defined.

Lemma csv_reader_dicts_are_complete_witness :
  ∃ header, head chunk_dev_2020 = Some header ∧
    dom (row_dict titles (row "developer" "100" "200" "RUR" "Omsk" "2020-05-01"))
      = list_to_set header ∧
    ∀ k v, row_dict titles (row "developer" "100" "200" "RUR" "Omsk" "2020-05-01")
             !! k = Some v → v ≠ [].
Proof.
  apply (csv_reader_dicts_are_complete chunk_dev_2020
           [row_dict titles (row "developer" "100" "200" "RUR" "Omsk" "2020-05-01")]).
  - reflexivity.
  - left.
Defined.

Lemma skipped_row_changes_nothing_witness :
  @get_statistics decimal_builtins
    (titles :: [] ++ [str "developer"; str "100"] :: []) (str "developer")
  = @get_statistics decimal_builtins (titles :: [] ++ []) (str "developer").
Proof.
  apply (@skipped_row_changes_nothing decimal_builtins).
  intros [_ Hlen]. discriminate Hlen.
Defined.

Lemma first_bad_row_decides_witness :
  @get_statistics decimal_builtins chunk_unknown_currency (str "developer")
  = Err KeyError.
Proof.
  apply (@first_bad_row_decides decimal_builtins chunk_unknown_currency
           (str "developer") [] []
           (row_dict titles (row "developer" "100" "200" "GBP" "Omsk" "2020-05-01"))).
  - reflexivity.
  - constructor.
  - by vm_compute.
Defined.

(** ** More on the merge *)

Lemma dict_update_frame σ target source l :
  l ≠ target → dict_update σ target source !! l = σ !! l.
Proof. intros Hl. unfold dict_update. by apply lookup_insert_ne. Qed.

Lemma update_pass_frame answer t σ l :
  l ∉ locs_of answer → update_pass answer t σ !! l = σ !! l.
Proof.
  destruct answer as [[[a0 a1] a2] a3], t as [[[t0 t1] t2] t3].
  intros Hl. cbn [locs_of] in Hl. unfold update_pass.
  by rewrite !dict_update_frame by distinct.
Qed.

Lemma merge_passes_frame answer l rest : ∀ σ σ',
  l ∉ locs_of answer →
  for_each (fun σ p => merge_pass answer σ (Some p)) rest σ = Ok σ' →
  σ' !! l = σ !! l.
Proof.
  induction rest as [|p rest IH]; intros σ σ' Hl Hloop; simpl in Hloop.
  - by injection Hloop as <-.
  - destruct p as [t|e]; simpl in Hloop; [|done].
    rewrite (IH _ _ Hl Hloop). by apply update_pass_frame.
Qed.

(** X9: when [get_united_dict] returns, it returns the first pool
    result's tuple, and every dict of the store other than the four of
    that tuple is as it was: the other tasks' results are read, never
    written. *)
Theorem get_united_dict_writes_first_only
    (pools : list AsyncResult) (σ σ' : store) (t : result_tuple) :
  get_united_dict pools σ = Ok (t, σ') →
  pools !! 0%nat = Some (Ok t) ∧
  ∀ l, l ∉ locs_of t → σ' !! l = σ !! l.
Proof.
  intros Hg. pose proof (get_united_dict_first _ _ _ _ Hg) as Hfirst.
  split; [done|]. intros l Hl.
  unfold get_united_dict in Hg.
  destruct pools as [|p pools]; [done|]. injection Hfirst as ->.
  cbn [list_item lookup list_lookup mbind res_bind get length] in Hg.
  rewrite Nat.sub_succ, Nat.sub_0_r in Hg.
  rewrite (for_each_ext _ (fun σ i => merge_pass t σ ((Ok t :: pools) !! i))) in Hg
    by (intros; apply inner_loop).
  rewrite (for_each_indices (merge_pass t) [Ok t] pools) in Hg.
  destruct (for_each _ pools σ) as [σ1|e] eqn:Hloop; [|done].
  cbn [mbind res_bind] in Hg. injection Hg as <-.
  by eapply merge_passes_frame.
Qed.

Lemma get_united_dict_writes_first_only_witness :
  match get_united_dict [Ok (0, 1, 2, 3); Ok (4, 5, 6, 7)]%nat
          (receive_all [Ok ({[2020 := 1]}, ∅, ∅, ∅); Ok ({[2020 := 3]}, ∅, ∅, ∅)]
             0%nat ∅).2 with
  | Ok (_, σ') => σ' !! 4%nat = Some ({[2020 := 3]} : gmap Z Z)
  | Err _ => False
  end.
Proof.
  destruct (get_united_dict _ _) as [[t σ']|e] eqn:Hg; [|by vm_compute in Hg].
  destruct (get_united_dict_writes_first_only _ _ _ _ Hg) as [Hfirst Hframe].
  injection Hfirst as <-. rewrite Hframe; [by vm_compute|].
  intros Hin. repeat (apply elem_of_cons in Hin as [Hin|Hin]; [discriminate Hin|]).
  by apply elem_of_nil in Hin.
Defined.

Section Single.
Context `{!Builtins}.

(** X10: with a single chunk file the run prints what [get_statistics]
    returns for the file, or raises what it raises. *)
Theorem process_input_single (file : csv_file) (vacancy_name : pystr) :
  process_input [file] vacancy_name = get_statistics file vacancy_name.
Proof.
  unfold process_input. rewrite unite_united. simpl.
  by destruct (get_statistics file vacancy_name).
Qed.

Lemma merge_into_skip_empty l1 l2 : ∀ a,
  merge_into a (l1 ++ Ok no_statistics :: l2) = merge_into a (l1 ++ l2).
Proof.
  induction l1 as [|[t|e] l1 IH]; intros a; simpl; [|apply IH|done].
  f_equal. apply statistics_eq. intros k _. rewrite dict_of_update4.
  replace (dict_of no_statistics k) with (∅ : gmap Z Z)
    by (by destruct k as [|[|[|k]]]).
  apply (left_id_L ∅ (∪)).
Qed.

Lemma united_skip_empty l1 l2 :
  l1 ++ l2 ≠ [] →
  united (l1 ++ Ok no_statistics :: l2) = united (l1 ++ l2).
Proof.
  intros Hne. destruct l1 as [|[a|e] l1]; simpl.
  - destruct l2 as [|[t|e] l2]; [done| |done]. simpl.
    by rewrite update4_no_statistics.
  - apply merge_into_skip_empty.
  - done.
Qed.

(** X11: a chunk file without a valid row contributes nothing: beside at
    least one other file, the run gives the same with it and without
    it. *)
Theorem empty_chunk_contributes_nothing
    (files1 files2 : list csv_file) (file : csv_file) (vacancy_name : pystr) :
  files1 ++ files2 ≠ [] →
  get_statistics file vacancy_name = Ok (∅, ∅, ∅, ∅) →
  process_input (files1 ++ file :: files2) vacancy_name
  = process_input (files1 ++ files2) vacancy_name.
Proof.
  intros Hne Hfile. unfold process_input.
  rewrite !unite_united, !fmap_app, fmap_cons, Hfile.
  apply united_skip_empty.
  intros Hnil. apply Hne. apply app_eq_nil in Hnil as [H1 H2].
  apply fmap_nil_inv in H1, H2. by subst.
Qed.

End Single.

Lemma empty_chunk_contributes_nothing_witness :
  @process_input decimal_builtins ([chunk_dev_2020] ++ chunk_header_only :: [])
    (str "developer")
  = @process_input decimal_builtins ([chunk_dev_2020] ++ []) (str "developer").
Proof.
  apply (@empty_chunk_contributes_nothing decimal_builtins).
  - done.
  - by vm_compute.
Defined.

(** ** More on the record normalizer and the averages *)

Lemma getitem_Ok `{Countable K} {V} (d : gmap K V) k v :
  getitem d k = Ok v ↔ d !! k = Some v.
Proof. unfold getitem. destruct (d !! k); split; intros [=]; by subst. Qed.

Section Records.
Context `{!Builtins}.

(** X12: whenever [Vacancy.__init__] returns, the record was made as C7
    says: name, currency and area are the row's fields, the two salary
    bounds are finite floats read from their fields and cut toward zero,
    the currency is a key of the table, [salary_average] is a float, the
    IEEE 754 value of [rate * (salary_from + salary_to) / 2] (half the
    product exactly, for an integer rate and a product below [2 ^ 53] in
    absolute value), and the year is the integer read from the first four
    characters of the date. *)
Theorem Vacancy_init_returns_checked_record
    (vacancy : gmap pystr pystr) (v : Vacancy) :
  Vacancy_init vacancy = Ok v →
  vacancy !! str "name" = Some (name v) ∧
  vacancy !! str "salary_currency" = Some (salary_currency v) ∧
  vacancy !! str "area_name" = Some (area_name v) ∧
  (∃ sf f1, vacancy !! str "salary_from" = Some sf ∧
            float_of_str sf = Ok f1 ∧ is_finite f1 = true ∧
            salary_from v = Z.quot (float_num f1) (float_den f1)) ∧
  (∃ st f2, vacancy !! str "salary_to" = Some st ∧
            float_of_str st = Ok f2 ∧ is_finite f2 = true ∧
            salary_to v = Z.quot (float_num f2) (float_den f2)) ∧
  (∃ rate avg, currency_to_rub !! salary_currency v = Some rate ∧
               salary_average v = PyFloat avg ∧
               half_of_product rate (salary_from v + salary_to v) avg ∧
               ∀ k, rate = PyInt k →
                 Z.abs (k * (salary_from v + salary_to v)) < 2 ^ 53 →
                 is_finite avg = true ∧
                 2 * float_num avg
                 = k * (salary_from v + salary_to v) * float_den avg) ∧
  (∃ date, vacancy !! str "published_at" = Some date ∧
           int_of_str (take 4 date) = Ok (year v)).
Proof.
  unfold Vacancy_init. intros Hv.
  apply bind_Ok in Hv as (n & Hn%getitem_Ok & Hv).
  apply bind_Ok in Hv as (sf & Hsf%getitem_Ok & Hv).
  apply bind_Ok in Hv as (f1 & Hf1 & Hv).
  apply bind_Ok in Hv as (i1 & [Hfin1 Hi1]%int_of_float_Ok & Hv).
  apply bind_Ok in Hv as (st & Hst%getitem_Ok & Hv).
  apply bind_Ok in Hv as (f2 & Hf2 & Hv).
  apply bind_Ok in Hv as (i2 & [Hfin2 Hi2]%int_of_float_Ok & Hv).
  apply bind_Ok in Hv as (c & Hc%getitem_Ok & Hv).
  apply bind_Ok in Hv as (rate & Hrate%getitem_Ok & Hv).
  apply bind_Ok in Hv as (p & Hp & Hv).
  apply bind_Ok in Hv as (x & Hx & Hv).
  apply bind_Ok in Hv as (a & Ha%getitem_Ok & Hv).
  apply bind_Ok in Hv as (date & Hd%getitem_Ok & Hv).
  apply bind_Ok in Hv as (y & Hy & Hv).
  injection Hv as <-. cbn.
  assert ((p' ← py_mul rate (PyInt (i1 + i2)); py_truediv p' (PyInt 2)) = Ok x)
    as (avg & -> & Havg)%average_formula
    by (rewrite Hp; exact Hx).
  split_and!; [done|done|done|by exists sf, f1|by exists st, f2| |by exists date].
  exists rate, avg. split_and!; [done|done|done|].
  intros k -> Hsmall. by apply half_of_product_exact.
Qed.

(** X13: [Vacancy.__init__] reads the six columns and nothing else: two
    rows that agree on them give the same record, or the same
    exception. *)
Theorem Vacancy_init_reads_six_columns (vacancy vacancy' : gmap pystr pystr) :
  (∀ column, column ∈ columns → vacancy !! column = vacancy' !! column) →
  Vacancy_init vacancy = Vacancy_init vacancy'.
Proof.
  intros Hsame. unfold Vacancy_init, getitem.
  rewrite !(Hsame (str _)) by (unfold columns; solve_elem).
  done.
Qed.

End Records.

Lemma get_average_dict_loop_lists `{Countable K} (items : pydict K (list pynum)) :
  ∀ r r' k l, get_average_dict_loop items r = Ok r' → (k, l) ∈ items →
    is_Ok (average l).
Proof.
  induction items as [|[k' l'] items IH]; intros r r' k l Hr Hin; simpl in Hr.
  - by apply elem_of_nil in Hin.
  - apply bind_Ok in Hr as (z & Hz & Hr).
    apply elem_of_cons in Hin as [[= -> ->]|Hin]; [by exists z|by eapply IH].
Qed.

(** X14: when [get_average_dict] returns, its result has exactly the keys
    of its argument, and no list of the argument is empty: an empty list
    makes it raise [ZeroDivisionError], as the first failing item. *)
Theorem get_average_dict_keys_and_empty_lists `{Countable K}
    (data : pydict K (list pynum)) :
  (∀ result, get_average_dict data = Ok result →
     dom result = keys data ∧ ∀ key l, (key, l) ∈ data → l ≠ []) ∧
  (∀ before key after,
     data = before ++ (key, []) :: after →
     (∀ k l, (k, l) ∈ before → is_Ok (average l)) →
     get_average_dict data = Err ZeroDivisionError).
Proof.
  split.
  - intros result Hres. split; [by apply get_average_dict_dom|].
    intros key l Hin ->.
    by destruct (get_average_dict_loop_lists _ _ _ _ _ Hres Hin) as [z Hz].
  - intros before key after -> Hbefore. unfold get_average_dict.
    generalize (∅ : gmap K Z).
    induction before as [|[k l] before IH]; intros r; simpl; [done|].
    destruct (Hbefore k l) as [z ->]; [left|]. simpl. apply IH.
    intros k' l' Hin. apply (Hbefore k' l'). by right.
Qed.

Lemma get_average_dict_keys_and_empty_lists_witness :
  get_average_dict [(2020, [PyInt 2; PyInt 5]); (2021, [])]
  = Err ZeroDivisionError.
Proof.
  apply (proj2 (get_average_dict_keys_and_empty_lists
                  [(2020, [PyInt 2; PyInt 5]); (2021, [])])
           [(2020, [PyInt 2; PyInt 5])] 2021 []).
  - reflexivity.
  - intros k l Hin. apply elem_of_cons in Hin as [[= -> ->]|Hin].
    + exists 3. by vm_compute.
    + by apply elem_of_nil in Hin.
Defined.

Lemma Vacancy_init_returns_checked_record_witness :
  ∃ rate avg,
    currency_to_rub !! salary_currency dev_2020 = Some rate ∧
    salary_average dev_2020 = PyFloat avg ∧
    half_of_product rate (salary_from dev_2020 + salary_to dev_2020) avg ∧
    ∀ k, rate = PyInt k →
      Z.abs (k * (salary_from dev_2020 + salary_to dev_2020)) < 2 ^ 53 →
      is_finite avg = true ∧
      2 * float_num avg
      = k * (salary_from dev_2020 + salary_to dev_2020) * float_den avg.
Proof.
  apply (@Vacancy_init_returns_checked_record decimal_builtins
           (row_dict titles (row "developer" "100" "200" "RUR" "Omsk" "2020-05-01"))
           dev_2020).
  by vm_compute.
Defined.

Lemma Vacancy_init_reads_six_columns_witness :
  @Vacancy_init decimal_builtins
    (row_dict titles (row "developer" "100" "200" "RUR" "Omsk" "2020-05-01"))
  = @Vacancy_init decimal_builtins
      (<[str "employer" := str "x"]>
         (row_dict titles (row "developer" "100" "200" "RUR" "Omsk" "2020-05-01"))).
Proof.
  apply (@Vacancy_init_reads_six_columns decimal_builtins).
  intros column Hin. symmetry. apply lookup_insert_ne.
  intros <-. vm_compute in Hin.
  repeat (apply elem_of_cons in Hin as [Hin|Hin]; [discriminate Hin|]).
  by apply elem_of_nil in Hin.
Defined.

(** ** The folder listing *)


(** X15: [get_filenames_from_dir] raises [IndexError] for a folder that
    does not exist; otherwise it returns one path per file directly in the
    folder, in the order of [os.walk], each the file name after
    [./dir_name/], so distinct file names give distinct paths, and files
    of sub-folders are left out. *)
Theorem get_filenames_from_dir_lists_top_folder
    (dir_name : pystr) (walk : list (pystr * list pystr * list pystr)) :
  (walk = [] → get_filenames_from_dir dir_name walk = Err IndexError) ∧
  (∀ dirpath dirnames filenames below,
     walk = (dirpath, dirnames, filenames) :: below →
     ∃ paths,
       get_filenames_from_dir dir_name walk = Ok paths ∧
       length paths = length filenames ∧
       (∀ i x, filenames !! i = Some x →
               paths !! i = Some (str "./" ++ dir_name ++ str "/" ++ x)) ∧
       (NoDup filenames → NoDup paths)).
Proof.
  split; [by intros ->|].
  intros dirpath dirnames filenames below ->. eexists. split; [done|].
  cbn [snd]. split_and!.
  - apply length_fmap.
  - intros i x Hi. rewrite list_lookup_fmap, Hi. simpl.
    by rewrite <- !app_assoc.
  - intros Hnd. apply NoDup_fmap_2; [|done].
    intros x y Hxy. by apply app_inv_head in Hxy.
Qed.

Lemma get_filenames_from_dir_lists_top_folder_witness :
  ∃ paths,
    get_filenames_from_dir (str "chunks")
      [(str ".//chunks", [], [str "2019.csv"; str "2020.csv"])] = Ok paths ∧
    paths !! 1%nat = Some (str "./chunks/2020.csv").
Proof.
  destruct (proj2 (get_filenames_from_dir_lists_top_folder (str "chunks")
                     [(str ".//chunks", [], [str "2019.csv"; str "2020.csv"])])
              (str ".//chunks") [] [str "2019.csv"; str "2020.csv"] [] eq_refl)
    as (paths & Hpaths & _ & Hith & _).
  exists paths. split; [exact Hpaths|].
  apply (Hith 1%nat (str "2020.csv")). reflexivity.
Defined.

(** ** The test on the profession *)

Lemma startswith_spec s sub : startswith s sub = true ↔ ∃ post, s = sub ++ post.
Proof.
  revert s. induction sub as [|c sub IH]; intros s; simpl.
  - destruct s; split; eauto.
  - destruct s as [|d s]; simpl.
    + split; [done|]. by intros [post [=]].
    + destruct (decide (c = d)) as [->|Hne].
      * rewrite IH. split; intros [post Hp]; exists post; congruence.
      * split; [done|]. intros [post [=]]. congruence.
Qed.

Lemma find_from_spec s sub : ∀ i,
  0 ≤ i →
  (find_from s sub i ≠ -1 ↔ ∃ pre post, s = pre ++ sub ++ post).
Proof.
  induction s as [|c s IH]; intros i Hi; cbn [find_from].
  - destruct (startswith [] sub) eqn:Hs.
    + apply startswith_spec in Hs as [post Hs]. split; [|intros _; lia].
      intros _. by exists [], post.
    + split; [done|]. intros (pre & post & Heq).
      symmetry in Heq. apply app_eq_nil in Heq as [_ Heq].
      apply app_eq_nil in Heq as [Hsub _]. by rewrite Hsub in Hs.
  - destruct (startswith (c :: s) sub) eqn:Hs.
    + apply startswith_spec in Hs as [post Hs]. split; [|intros _; lia].
      intros _. by exists [], post.
    + rewrite IH by lia. split.
      * intros (pre & post & ->). by exists (c :: pre), post.
      * intros (pre & post & Heq). destruct pre as [|d pre].
        -- assert (startswith (c :: s) sub = true) as Hs'
             by (apply startswith_spec; by exists post).
           congruence.
        -- injection Heq as -> ->. by exists pre, post.
Qed.

(** X16: a vacancy is counted for the profession exactly when the
    profession string occurs in its name as a contiguous run of
    characters, compared as they are. *)
Theorem matches_iff_substring (vacancy_name : pystr) (v : Vacancy) :
  matches vacancy_name v ↔
  ∃ before after, name v = before ++ vacancy_name ++ after.
Proof. unfold matches, find. by apply find_from_spec. Qed.

Lemma matches_iff_substring_witness : matches (str "develop") dev_2020.
Proof.
  apply (proj2 (matches_iff_substring (str "develop") dev_2020)).
  by exists [], (str "er").
Defined.
